(** * Admission pipeline of the KeePass Telegram bot

  A shallow embedding of the stateful core of the bot:
  - [auth.py]         : [AuthManager], the registry of approved users and
                        pending access requests, persisted as JSON;
  - [email_auth.py]   : [Email2FA], the e-mailed verification code;
  - [csrf_manager.py] : [CSRFManager], tokens bound to callback data;
  - [rate_limiter.py] : [RateLimiter], sliding windows of attempts.

  Every Python method becomes a function from the object's state (and the
  readings of the clock, of the random source and of the mail transport it
  consumes) to its return value and the state it leaves behind.  Calls to
  the logger have no effect on that state and are left out. *)

From Stdlib Require Import ZArith QArith Qround Lqa Lia List Ascii String Bool.
From stdpp Require Import gmap strings list fin_maps pretty.

Local Open Scope Z_scope.

(** ** Python conventions shared by the four modules *)

Module Py.

(** Exceptions that the modelled methods can let escape. *)
Inductive exn := KeyError | ValueError.

(** What a call does: it returns, or an exception leaves the method.  The
    state carried by [Raised] is the state of the object at the raise. *)
Inductive outcome (A S : Type) :=
| Returned (a : A) (s : S)
| Raised (e : exn) (s : S).
Arguments Returned {A S} a s.
Arguments Raised {A S} e s.

(** [str(n)] for an [int]. *)
Definition str (n : Z) : string := pretty n.

(** A JSON file.  [content] is [None] while the file does not exist (or
    does not parse); [writable] says whether [open(path, 'w')] succeeds.
    [dump] is the body shared by [_save_allowed_users] and [_save_codes]:
    the [IOError] of a failed write is caught and logged, the file keeps
    what it had. *)
Record file (A : Type) := File { content : option A; writable : bool }.
Arguments File {A} content writable.
Arguments content {A} f.
Arguments writable {A} f.

Definition dump {A : Type} (data : A) (f : file A) : file A :=
  if writable f then File (Some data) true else f.

(** A naive [datetime]: microseconds on the local time line.  A method reads
    the clock once; that reading is its [now] argument. *)
Abbreviation datetime := Z.
Definition microseconds_per_second : Z := 1000000.
Definition timedelta_seconds (n : Z) : Z := n * microseconds_per_second.
Definition timedelta_minutes (n : Z) : Z := timedelta_seconds (n * 60).

(** The text that [strftime("%Y-%m-%d %H:%M:%S")] writes names a whole
    second; any other text makes [strptime] raise [ValueError].  A stored
    timestamp is kept as what it parses to. *)
Inductive timestamp_text :=
| Stamp (seconds : Z)
| Garbled (raw : string).

Definition strftime (t : datetime) : timestamp_text :=
  Stamp (t / microseconds_per_second).

Definition strptime (s : timestamp_text) : option datetime :=
  match s with
  | Stamp n => Some (n * microseconds_per_second)
  | Garbled _ => None
  end.

(** Strings are sequences of bytes here.  The delimiter and the tokens are
    ASCII, so searching the bytes of the UTF-8 text finds what searching
    its characters finds. *)

(** [sub in s] on strings. *)
Fixpoint contains (sub s : string) : bool :=
  String.prefix sub s ||
  match s with
  | EmptyString => false
  | String _ s' => contains sub s'
  end.

(** [s[n:]]. *)
Fixpoint skip (n : nat) (s : string) : string :=
  match n, s with
  | O, _ => s
  | S n', String _ s' => skip n' s'
  | S _, EmptyString => EmptyString
  end.

(** [s.rsplit(sep, 1)] for a non-empty [sep]: split at the last occurrence
    of [sep], or the one-element list [[s]] when there is none. *)
Fixpoint rsplit1 (sep s : string) : list string :=
  match s with
  | EmptyString => [s]
  | String c s' =>
      match rsplit1 sep s' with
      | [d; t] => [String c d; t]
      | _ =>
          if String.prefix sep s then [EmptyString; skip (String.length sep) s]
          else [s]
      end
  end.


(** [int(x)] on a number: truncation toward zero. *)
Definition int (x : Q) : Z := Z.quot (Qnum x) (Zpos (Qden x)).

(** [x < y] on numbers, as a boolean. *)
Definition Qlt_bool (x y : Q) : bool := negb (Qle_bool y x).

(** [min(l)]: the first least element; [ValueError] on the empty list is the
    [None] here. *)
Definition min (l : list Q) : option Q :=
  match l with
  | [] => None
  | x :: r => Some (fold_left (λ m y, if Qlt_bool y m then y else m) r x)
  end.

End Py.

(** ** auth.py : the access registry *)

Module Auth.

(** An element of [allowed_users["users"]]. *)
Record user_entry := User {
  user_id : Z;
  username : string;
  approved_at : string
}.

(** An element of [allowed_users["pending_requests"]]. *)
Record request_entry := Request {
  req_user_id : Z;
  req_username : string;
  timestamp : string
}.

(** The dictionary [{"users": [...], "pending_requests": [...]}]. *)
Record registry := Registry {
  users : list user_entry;
  pending_requests : list request_entry
}.

(** The object: the dictionary in memory and the file behind it. *)
Record AuthManager := Manager {
  allowed_users : registry;
  allowed_users_file : Py.file registry
}.

Definition empty_registry : registry := Registry [] [].

(** [_load_allowed_users]: the parsed file, or the empty registry. *)
Definition _load_allowed_users (f : Py.file registry) : registry :=
  match Py.content f with
  | Some r => r
  | None => empty_registry
  end.

(** [__init__]. *)
Definition init (f : Py.file registry) : AuthManager :=
  Manager (_load_allowed_users f) f.

(** [_save_allowed_users]. *)
Definition _save_allowed_users (m : AuthManager) : AuthManager :=
  Manager (allowed_users m) (Py.dump (allowed_users m) (allowed_users_file m)).

(** [is_user_allowed]: membership of [str(user_id)] among the [str] of the
    stored ids. *)
Definition is_user_allowed (uid : Z) (m : AuthManager) : bool :=
  bool_decide (Py.str uid ∈ (λ u, Py.str (user_id u)) <$> users (allowed_users m)).

(** [add_user_request].  [now] is [str(datetime.now())]. *)
Definition add_user_request (uid : Z) (uname now : string) (m : AuthManager)
  : AuthManager :=
  let reg := allowed_users m in
  if existsb (λ r, (req_user_id r =? uid)%Z) (pending_requests reg) then m
  else
    _save_allowed_users
      (Manager
         (Registry (users reg) (pending_requests reg ++ [Request uid uname now]))
         (allowed_users_file m)).

(** [approve_user]. *)
Definition approve_user (uid : Z) (uname now : string) (m : AuthManager)
  : bool * AuthManager :=
  let reg := allowed_users m in
  let m1 :=
    Manager
      (Registry (users reg) (filter (λ r, req_user_id r ≠ uid) (pending_requests reg)))
      (allowed_users_file m) in
  if negb (is_user_allowed uid m1) then
    let reg1 := allowed_users m1 in
    (true,
     _save_allowed_users
       (Manager
          (Registry (users reg1 ++ [User uid uname now]) (pending_requests reg1))
          (allowed_users_file m1)))
  else (false, m1).

(** [deny_user]. *)
Definition deny_user (uid : Z) (uname : string) (m : AuthManager)
  : bool * AuthManager :=
  let reg := allowed_users m in
  let original_count := length (pending_requests reg) in
  let m1 :=
    Manager
      (Registry (users reg) (filter (λ r, req_user_id r ≠ uid) (pending_requests reg)))
      (allowed_users_file m) in
  if (length (pending_requests (allowed_users m1)) <? original_count)%nat
  then (true, _save_allowed_users m1)
  else (false, m1).

(** [revoke_user_access]. *)
Definition revoke_user_access (uid : Z) (m : AuthManager) : bool * AuthManager :=
  let reg := allowed_users m in
  let original_count := length (users reg) in
  let m1 :=
    Manager
      (Registry (filter (λ u, user_id u ≠ uid) (users reg)) (pending_requests reg))
      (allowed_users_file m) in
  if (length (users (allowed_users m1)) <? original_count)%nat
  then (true, _save_allowed_users m1)
  else (false, m1).

(** [get_pending_requests] and [get_allowed_users]: copies of the lists. *)
Definition get_pending_requests (m : AuthManager) : list request_entry :=
  pending_requests (allowed_users m).
Definition get_allowed_users (m : AuthManager) : list user_entry :=
  users (allowed_users m).

(** *** Vocabulary of the specification *)

Definition approved_ids (m : AuthManager) : list Z :=
  user_id <$> users (allowed_users m).
Definition pending_ids (m : AuthManager) : list Z :=
  req_user_id <$> pending_requests (allowed_users m).

(** How many entries the list of approved users has for one id. *)
Definition entries_of (uid : Z) (l : list user_entry) : nat :=
  length (filter (λ u, user_id u = uid) l).

(** Invariant 1: nobody is both pending and approved. *)
Definition exclusive (m : AuthManager) : Prop :=
  ∀ p, ¬ (p ∈ pending_ids m ∧ p ∈ approved_ids m).

(** The file holds exactly the registry in memory. *)
Definition in_sync (m : AuthManager) : Prop :=
  Py.content (allowed_users_file m) = Some (allowed_users m).

(** The operations of the registry, for sequences of calls. *)
Inductive op :=
| RequestAccess (uid : Z) (uname now : string)
| Approve (uid : Z) (uname now : string)
| Deny (uid : Z) (uname : string)
| Revoke (uid : Z).

Definition step (m : AuthManager) (o : op) : AuthManager :=
  match o with
  | RequestAccess uid uname now => add_user_request uid uname now m
  | Approve uid uname now => snd (approve_user uid uname now m)
  | Deny uid uname => snd (deny_user uid uname m)
  | Revoke uid => snd (revoke_user_access uid m)
  end.

Definition run (m : AuthManager) (os : list op) : AuthManager :=
  fold_left step os m.

(** A fresh deployment: no file yet, the disk accepts writes. *)
Definition fresh : AuthManager := init (Py.File None true).

(** How many pending requests the list holds for one id. *)
Definition requests_of (uid : Z) (l : list request_entry) : nat :=
  length (filter (λ r, req_user_id r = uid) l).

(** A sequence of calls in which nobody who is approved at that moment asks
    for access. *)
Fixpoint admissible (m : AuthManager) (os : list op) : Prop :=
  match os with
  | [] => True
  | o :: os' =>
      match o with
      | RequestAccess uid _ _ => is_user_allowed uid m = false
      | _ => True
      end ∧ admissible (step m o) os'
  end.

(** A call that is not the approval of someone who is approved and still
    has a pending request. *)
Definition saves_its_change (m : AuthManager) (o : op) : Prop :=
  match o with
  | Approve uid _ _ => is_user_allowed uid m = false ∨ uid ∉ pending_ids m
  | _ => True
  end.

End Auth.

(** ** email_auth.py : the e-mailed second factor *)

Module Email2FA.

(** A value of [codes_data["codes"]]. *)
Record code_info := CodeInfo {
  code : string;
  expires_at : Py.timestamp_text;
  attempts : Z;
  max_attempts : Z;
  username : string
}.

(** The object: [codes_data["codes"]], keyed by [str(user_id)], and the file
    behind it. *)
Record Email2FA := Manager {
  codes : gmap string code_info;
  codes_file : Py.file (gmap string code_info)
}.

(** The settings fixed by [__init__]. *)
Definition code_length : Z := 6.
Definition code_expiry_minutes : Z := 60.
Definition self_max_attempts : Z := 3.

(** [_load_codes] and [__init__]. *)
Definition _load_codes (f : Py.file (gmap string code_info)) : gmap string code_info :=
  match Py.content f with
  | Some c => c
  | None => ∅
  end.

Definition init (f : Py.file (gmap string code_info)) : Email2FA :=
  Manager (_load_codes f) f.

(** [_save_codes]. *)
Definition _save_codes (s : Email2FA) : Email2FA :=
  Manager (codes s) (Py.dump (codes s) (codes_file s)).

(** [_is_code_expired]: a text that does not parse counts as expired. *)
Definition _is_code_expired (now : Py.datetime) (expires_at : Py.timestamp_text) : bool :=
  match Py.strptime expires_at with
  | Some expiry_time => now >? expiry_time
  | None => true
  end.

(** [_cleanup_expired_codes]. *)
Definition _cleanup_expired_codes (now : Py.datetime) (s : Email2FA) : Email2FA :=
  let expired_users :=
    (List.filter (λ item, _is_code_expired now (expires_at item.2))
                 (map_to_list (codes s))).*1 in
  let s1 := Manager (foldr delete (codes s) expired_users) (codes_file s) in
  match expired_users with
  | [] => s1
  | _ :: _ => _save_codes s1
  end.

(** [send_verification_code].  [new_code] is what [_generate_code] drew and
    [delivered] tells whether the SMTP exchange went through without an
    exception.  The addresses and credentials only feed the transport. *)
Definition send_verification_code (user_id : Z) (uname : string)
    (new_code : string) (now : Py.datetime) (delivered : bool) (s : Email2FA)
  : option string * Email2FA :=
  let s1 := _cleanup_expired_codes now s in
  let expires := now + Py.timedelta_minutes code_expiry_minutes in
  let s2 :=
    _save_codes
      (Manager
         (<[Py.str user_id :=
              CodeInfo new_code (Py.strftime expires) 0 self_max_attempts uname]>
            (codes s1))
         (codes_file s1)) in
  if delivered then (Some new_code, s2)
  else
    match codes s2 !! Py.str user_id with
    | Some _ =>
        (None, _save_codes (Manager (delete (Py.str user_id) (codes s2)) (codes_file s2)))
    | None => (None, s2)
    end.

(** The texts of the ["message"] field, by kind; the retry text carries the
    number of attempts left. *)
Inductive message :=
| CodeNotFound
| CodeExpired
| AttemptsExceeded
| CodeConfirmed
| WrongCode (remaining_attempts : Z).

(** The dictionary that [verify_code] returns. *)
Record verdict := Verdict {
  success : bool;
  msg : message;
  can_retry : bool
}.

(** [verify_code].  [code_info] is the dictionary stored in the map, so the
    increment of its ["attempts"] is a store into the map. *)
Definition verify_code (user_id : Z) (input_code : string) (now : Py.datetime)
    (s : Email2FA) : verdict * Email2FA :=
  let user_id_str := Py.str user_id in
  let discard (s0 : Email2FA) :=
    _save_codes (Manager (delete user_id_str (codes s0)) (codes_file s0)) in
  match codes s !! user_id_str with
  | None => (Verdict false CodeNotFound false, s)
  | Some info =>
      if _is_code_expired now (expires_at info) then
        (Verdict false CodeExpired false, discard s)
      else if attempts info >=? max_attempts info then
        (Verdict false AttemptsExceeded false, discard s)
      else if String.eqb input_code (code info) then
        (Verdict true CodeConfirmed false, discard s)
      else
        let info' :=
          CodeInfo (code info) (expires_at info) (attempts info + 1)
                   (max_attempts info) (username info) in
        let remaining_attempts := max_attempts info' - attempts info' in
        let s1 :=
          _save_codes (Manager (<[user_id_str := info']> (codes s)) (codes_file s)) in
        if remaining_attempts >? 0 then
          (Verdict false (WrongCode remaining_attempts) true, s1)
        else
          (Verdict false AttemptsExceeded false, discard s1)
  end.

(** [resend_code]. *)
Definition resend_code (user_id : Z) (uname : string)
    (new_code : string) (now : Py.datetime) (delivered : bool) (s : Email2FA)
  : option string * Email2FA :=
  let s1 :=
    match codes s !! Py.str user_id with
    | Some _ => _save_codes (Manager (delete (Py.str user_id) (codes s)) (codes_file s))
    | None => s
    end in
  send_verification_code user_id uname new_code now delivered s1.

(** A challenge for [user_id] is on file: in memory, or in the file. *)
Definition in_memory (user_id : Z) (s : Email2FA) : Prop :=
  is_Some (codes s !! Py.str user_id).
Definition persisted (user_id : Z) (s : Email2FA) : Prop :=
  ∃ c, Py.content (codes_file s) = Some c ∧ is_Some (c !! Py.str user_id).

(** The challenge of [user_id] is gone from memory, nothing else moved, and
    the file was written from the result. *)
Definition discarded (user_id : Z) (s s' : Email2FA) : Prop :=
  codes s' = delete (Py.str user_id) (codes s) ∧
  codes_file s' = Py.dump (codes s') (codes_file s).

(** What [send_verification_code] stores before it tries to deliver. *)
Definition issued (uname new_code : string) (t0 : Py.datetime) : code_info :=
  CodeInfo new_code
           (Py.strftime (t0 + Py.timedelta_minutes code_expiry_minutes))
           0 self_max_attempts uname.

(** The file holds exactly the challenges in memory. *)
Definition in_sync (s : Email2FA) : Prop :=
  Py.content (codes_file s) = Some (codes s).

End Email2FA.

(** ** csrf_manager.py : tokens bound to callback data *)

Module CSRF.

(** The object: the two dictionaries keyed by [user_id]. *)
Record CSRFManager := Manager {
  user_tokens : gmap Z string;
  token_expiry : gmap Z Py.datetime
}.

(** The settings fixed by [__init__]. *)
Definition token_length : Z := 8.
Definition token_lifetime : Z := 3600.

(** The separator written between callback data and token. *)
Definition delimiter : string := "|csrf:"%string.

(** [__init__]. *)
Definition init : CSRFManager := Manager ∅ ∅.

(** The alphabet of [secrets.token_urlsafe]. *)
Definition urlsafe_char (c : ascii) : bool :=
  let n := nat_of_ascii c in
  ((65 <=? n) && (n <=? 90) || (97 <=? n) && (n <=? 122) ||
   (48 <=? n) && (n <=? 57) || (n =? 45) || (n =? 95))%nat.

Fixpoint urlsafe (s : string) : bool :=
  match s with
  | EmptyString => true
  | String c s' => urlsafe_char c && urlsafe s'
  end.

(** [generate_token].  [fresh] is what [secrets.token_urlsafe] drew. *)
Definition generate_token (user_id : Z) (fresh : string) (now : Py.datetime)
    (s : CSRFManager) : string * CSRFManager :=
  (fresh,
   Manager (<[user_id := fresh]> (user_tokens s))
           (<[user_id := now + Py.timedelta_seconds token_lifetime]> (token_expiry s))).

(** [_cleanup_user_token]. *)
Definition _cleanup_user_token (user_id : Z) (s : CSRFManager) : CSRFManager :=
  Manager (delete user_id (user_tokens s)) (delete user_id (token_expiry s)).

(** [validate_token].  Reading [token_expiry[user_id]] raises [KeyError]
    when only [user_tokens] knows the user. *)
Definition validate_token (user_id : Z) (token : string) (now : Py.datetime)
    (s : CSRFManager) : Py.outcome bool CSRFManager :=
  match user_tokens s !! user_id with
  | None => Py.Returned false s
  | Some stored =>
      match token_expiry s !! user_id with
      | None => Py.Raised Py.KeyError s
      | Some expiry =>
          if now >? expiry then Py.Returned false (_cleanup_user_token user_id s)
          else if negb (String.eqb stored token) then Py.Returned false s
          else Py.Returned true s
      end
  end.

(** [get_user_token]. *)
Definition get_user_token (user_id : Z) (now : Py.datetime) (s : CSRFManager)
  : Py.outcome (option string) CSRFManager :=
  match user_tokens s !! user_id with
  | None => Py.Returned None s
  | Some stored =>
      match token_expiry s !! user_id with
      | None => Py.Raised Py.KeyError s
      | Some expiry =>
          if now >? expiry then Py.Returned None (_cleanup_user_token user_id s)
          else Py.Returned (Some stored) s
      end
  end.

(** [refresh_token]. *)
Definition refresh_token (user_id : Z) (fresh : string) (now : Py.datetime)
    (s : CSRFManager) : string * CSRFManager :=
  generate_token user_id fresh now s.

(** [cleanup_expired_tokens]. *)
Definition cleanup_expired_tokens (now : Py.datetime) (s : CSRFManager) : CSRFManager :=
  let expired_users :=
    (List.filter (λ item : Z * Py.datetime, now >? item.2)
                 (map_to_list (token_expiry s))).*1 in
  foldr _cleanup_user_token s expired_users.

(** [add_csrf_to_callback_data].  [not token] holds for [None] and for the
    empty string. *)
Definition add_csrf_to_callback_data (user_id : Z) (callback_data : string)
    (fresh : string) (now : Py.datetime) (s : CSRFManager)
  : Py.outcome string CSRFManager :=
  match get_user_token user_id now s with
  | Py.Raised e s1 => Py.Raised e s1
  | Py.Returned token s1 =>
      let '(token', s2) :=
        match token with
        | Some (String c t) => (String c t, s1)
        | Some EmptyString | None => generate_token user_id fresh now s1
        end in
      Py.Returned (callback_data +:+ delimiter +:+ token') s2
  end.

(** [extract_callback_data].  Unpacking the result of [rsplit] into two
    names raises [ValueError] unless it has two elements. *)
Definition extract_callback_data (user_id : Z) (callback_data : string)
    (now : Py.datetime) (s : CSRFManager)
  : Py.outcome (option string) CSRFManager :=
  if negb (Py.contains delimiter callback_data) then Py.Returned None s
  else
    match Py.rsplit1 delimiter callback_data with
    | [data; token_part] =>
        match validate_token user_id token_part now s with
        | Py.Raised e s1 => Py.Raised e s1
        | Py.Returned false s1 => Py.Returned None s1
        | Py.Returned true s1 => Py.Returned (Some data) s1
        end
    | _ => Py.Raised Py.ValueError s
    end.

(** The states the methods produce: both dictionaries know the same users
    and every stored token is made of the URL-safe alphabet. *)
Definition well_formed (s : CSRFManager) : Prop :=
  (∀ u, is_Some (user_tokens s !! u) → is_Some (token_expiry s !! u)) ∧
  (∀ u t, user_tokens s !! u = Some t → urlsafe t = true).

(** A call that returns, and leaves a well-formed state. *)
Definition returns_well_formed {A : Type} (o : Py.outcome A CSRFManager) : Prop :=
  match o with
  | Py.Returned _ s' => well_formed s'
  | Py.Raised _ _ => False
  end.

End CSRF.

(** ** rate_limiter.py : sliding windows of attempts *)

Module RateLimiter.

(** The object.  The three dictionaries are [defaultdict(list)]s of
    [time.time()] readings, taken here as exact rationals (seconds). *)
Record RateLimiter := Limiter {
  pin_attempts : gmap Z (list Q);
  twofa_attempts : gmap Z (list Q);
  request_counts : gmap Z (list Q);
  max_pin_attempts : Z;
  max_twofa_attempts : Z;
  max_requests_per_minute : Z;
  pin_lockout_duration : Z;
  twofa_lockout_duration : Z;
  request_window : Z
}.

(** [__init__], with its default arguments in [defaults]. *)
Definition init (max_pin max_twofa max_requests pin_lockout twofa_lockout : Z)
  : RateLimiter :=
  Limiter ∅ ∅ ∅ max_pin max_twofa max_requests pin_lockout twofa_lockout 60.

Definition defaults : RateLimiter := init 5 3 10 300 180.

(** The dictionary that a check returns: ["allowed": True] with what is
    left of the quota (["remaining_attempts"] or ["remaining_requests"]), or
    ["allowed": False] with ["remaining_time"]. *)
Inductive verdict :=
| Allowed (remaining : Z)
| Denied (remaining_time : Z).

(** The list comprehension that drops old readings. *)
Definition recent (window : Z) (current_time : Q) (l : list Q) : list Q :=
  List.filter (λ attempt_time, Py.Qlt_bool (current_time - attempt_time) (inject_Z window)) l.

(** The body that the three checks share, on the dictionary, the window and
    the maximum each of them names.  [d[user_id]] creates the empty list of
    a new user and [l[:] = ...] stores into the list the dictionary holds. *)
Definition check_window (window maximum : Z) (user_id : Z) (current_time : Q)
    (d : gmap Z (list Q)) : Py.outcome verdict (gmap Z (list Q)) :=
  let user_attempts := recent window current_time (default [] (d !! user_id)) in
  let d1 := <[user_id := user_attempts]> d in
  if Z.of_nat (length user_attempts) >=? maximum then
    match Py.min user_attempts with
    | None => Py.Raised Py.ValueError d1
    | Some oldest_attempt =>
        let remaining_time :=
          Py.int (inject_Z window - (current_time - oldest_attempt)) in
        Py.Returned (Denied remaining_time) d1
    end
  else
    let user_attempts' := user_attempts ++ [current_time] in
    Py.Returned (Allowed (maximum - Z.of_nat (length user_attempts')))
                (<[user_id := user_attempts']> d1).

Definition set_pin_attempts (d : gmap Z (list Q)) (s : RateLimiter) : RateLimiter :=
  Limiter d (twofa_attempts s) (request_counts s)
          (max_pin_attempts s) (max_twofa_attempts s) (max_requests_per_minute s)
          (pin_lockout_duration s) (twofa_lockout_duration s) (request_window s).

Definition set_twofa_attempts (d : gmap Z (list Q)) (s : RateLimiter) : RateLimiter :=
  Limiter (pin_attempts s) d (request_counts s)
          (max_pin_attempts s) (max_twofa_attempts s) (max_requests_per_minute s)
          (pin_lockout_duration s) (twofa_lockout_duration s) (request_window s).

Definition set_request_counts (d : gmap Z (list Q)) (s : RateLimiter) : RateLimiter :=
  Limiter (pin_attempts s) (twofa_attempts s) d
          (max_pin_attempts s) (max_twofa_attempts s) (max_requests_per_minute s)
          (pin_lockout_duration s) (twofa_lockout_duration s) (request_window s).

Definition lift {A : Type} (set : gmap Z (list Q) → RateLimiter → RateLimiter)
    (s : RateLimiter) (o : Py.outcome A (gmap Z (list Q))) : Py.outcome A RateLimiter :=
  match o with
  | Py.Returned a d => Py.Returned a (set d s)
  | Py.Raised e d => Py.Raised e (set d s)
  end.

(** [check_pin_rate_limit]. *)
Definition check_pin_rate_limit (user_id : Z) (current_time : Q) (s : RateLimiter)
  : Py.outcome verdict RateLimiter :=
  lift set_pin_attempts s
    (check_window (pin_lockout_duration s) (max_pin_attempts s)
                  user_id current_time (pin_attempts s)).

(** [check_twofa_rate_limit]. *)
Definition check_twofa_rate_limit (user_id : Z) (current_time : Q) (s : RateLimiter)
  : Py.outcome verdict RateLimiter :=
  lift set_twofa_attempts s
    (check_window (twofa_lockout_duration s) (max_twofa_attempts s)
                  user_id current_time (twofa_attempts s)).

(** [check_request_rate_limit]. *)
Definition check_request_rate_limit (user_id : Z) (current_time : Q) (s : RateLimiter)
  : Py.outcome verdict RateLimiter :=
  lift set_request_counts s
    (check_window (request_window s) (max_requests_per_minute s)
                  user_id current_time (request_counts s)).

(** [reset_pin_attempts] and [reset_twofa_attempts]. *)
Definition reset_pin_attempts (user_id : Z) (s : RateLimiter) : RateLimiter :=
  set_pin_attempts (delete user_id (pin_attempts s)) s.

Definition reset_twofa_attempts (user_id : Z) (s : RateLimiter) : RateLimiter :=
  set_twofa_attempts (delete user_id (twofa_attempts s)) s.

(** The three rate categories, and what each check reads and writes. *)
Inductive category := Pin | Twofa | Request.

Definition check (c : category) : Z → Q → RateLimiter → Py.outcome verdict RateLimiter :=
  match c with
  | Pin => check_pin_rate_limit
  | Twofa => check_twofa_rate_limit
  | Request => check_request_rate_limit
  end.

Definition window_of (c : category) (s : RateLimiter) : Z :=
  match c with
  | Pin => pin_lockout_duration s
  | Twofa => twofa_lockout_duration s
  | Request => request_window s
  end.

Definition maximum_of (c : category) (s : RateLimiter) : Z :=
  match c with
  | Pin => max_pin_attempts s
  | Twofa => max_twofa_attempts s
  | Request => max_requests_per_minute s
  end.

Definition attempts_of (c : category) (s : RateLimiter) : gmap Z (list Q) :=
  match c with
  | Pin => pin_attempts s
  | Twofa => twofa_attempts s
  | Request => request_counts s
  end.

Definition set_attempts (c : category) : gmap Z (list Q) → RateLimiter → RateLimiter :=
  match c with
  | Pin => set_pin_attempts
  | Twofa => set_twofa_attempts
  | Request => set_request_counts
  end.

(** The readings on record for a user in a category. *)
Definition history (c : category) (user_id : Z) (s : RateLimiter) : list Q :=
  default [] (attempts_of c s !! user_id).

(** The state after a call, whichever way it ended. *)
Definition state_of {A S : Type} (o : Py.outcome A S) : S :=
  match o with
  | Py.Returned _ s => s
  | Py.Raised _ s => s
  end.

(** Successive checks of one user in one category, at the given times. *)
Definition checks (c : category) (user_id : Z) (times : list Q) (s : RateLimiter)
  : RateLimiter :=
  fold_left (λ s0 t, state_of (check c user_id t s0)) times s.

(** The body that [get_pin_attempts_remaining] and
    [get_twofa_attempts_remaining] share: prune in place, then count. *)
Definition remaining_window (window maximum : Z) (user_id : Z) (current_time : Q)
    (d : gmap Z (list Q)) : Z * gmap Z (list Q) :=
  let user_attempts := recent window current_time (default [] (d !! user_id)) in
  (Z.max 0 (maximum - Z.of_nat (length user_attempts)),
   <[user_id := user_attempts]> d).

(** [get_pin_attempts_remaining]. *)
Definition get_pin_attempts_remaining (user_id : Z) (current_time : Q) (s : RateLimiter)
  : Z * RateLimiter :=
  let '(n, d) :=
    remaining_window (pin_lockout_duration s) (max_pin_attempts s)
                     user_id current_time (pin_attempts s) in
  (n, set_pin_attempts d s).

(** [get_twofa_attempts_remaining]. *)
Definition get_twofa_attempts_remaining (user_id : Z) (current_time : Q) (s : RateLimiter)
  : Z * RateLimiter :=
  let '(n, d) :=
    remaining_window (twofa_lockout_duration s) (max_twofa_attempts s)
                     user_id current_time (twofa_attempts s) in
  (n, set_twofa_attempts d s).

(** Whether a call was allowed. *)
Definition allowed {S : Type} (o : Py.outcome verdict S) : bool :=
  match o with
  | Py.Returned (Allowed _) _ => true
  | _ => false
  end.

End RateLimiter.

(** ** pagination.py and the page arithmetic of the keyboards *)

Module Pagination.

(** [a // b] on ints; [None] stands for [ZeroDivisionError]. *)
Definition floordiv (a b : Z) : option Z :=
  if b =? 0 then None else Some (a / b).

(** [l[start:stop]] for ints of either sign. *)
Definition slice_bound (len i : Z) : Z :=
  if i <? 0 then Z.max 0 (i + len) else Z.min i len.

Definition slice {A : Type} (l : list A) (start stop : Z) : list A :=
  let len := Z.of_nat (length l) in
  let a := slice_bound len start in
  let b := slice_bound len stop in
  take (Z.to_nat (b - a)) (drop (Z.to_nat a) l).

(** The opening lines that [get_page_info], [create_search_results_keyboard],
    [create_admin_users_keyboard] and [create_users_management_keyboard]
    share: the number of pages, the page number brought into range, and
    the index of the first element of that page. *)
Record position := Position {
  total_pages : Z;
  page : Z;
  start_idx : Z
}.

Definition locate (items_per_page : Z) (count : nat) (requested : Z) : option position :=
  match floordiv (Z.of_nat count - 1) items_per_page with
  | None => None
  | Some q =>
      let total_pages := q + 1 in
      let page := Z.max 0 (Z.min requested (total_pages - 1)) in
      Some (Position total_pages page (page * items_per_page))
  end.



(** The elements for which the keyboards make one row each:
    [results[start_idx:end_idx]], and no row at all for an empty list. *)
Definition page_items {A : Type} (items_per_page : Z) (results : list A)
    (requested : Z) : option (list A) :=
  match results with
  | [] => Some []
  | _ :: _ =>
      match locate items_per_page (length results) requested with
      | None => None
      | Some pos =>
          Some (slice results (start_idx pos) (start_idx pos + items_per_page))
      end
  end.

(** The buttons of the navigation row, by the page their callback data
    name: back to [page - 1], the place [page + 1] of [total_pages], on to
    [page + 1]. *)
Inductive nav :=
| Back (target : Z)
| Place (page_number pages : Z)
| Forward (target : Z).

(** The navigation row that the keyboards append, empty when there is
    none. *)
Definition navigation {A : Type} (items_per_page : Z) (results : list A)
    (requested : Z) : option (list nav) :=
  match results with
  | [] => Some []
  | _ :: _ =>
      match locate items_per_page (length results) requested with
      | None => None
      | Some pos =>
          Some
            (if total_pages pos >? 1 then
               (if page pos >? 0 then [Back (page pos - 1)] else []) ++
               [Place (page pos + 1) (total_pages pos)] ++
               (if page pos <? total_pages pos - 1 then [Forward (page pos + 1)] else [])
             else [])
      end
  end.

(** A button of the navigation row leads to a page that exists. *)
Definition leads_inside (pages : Z) (b : nav) : Prop :=
  match b with
  | Back target | Forward target => 0 ≤ target < pages
  | Place k n => 1 ≤ k ≤ n ∧ n = pages
  end.

End Pagination.

(** ** input_validator.py : the format of the PIN and of the code *)

Module InputValidator.

(** The class [[0-9]]. *)
Definition is_digit (c : ascii) : bool :=
  let n := nat_of_ascii c in (48 <=? n)%nat && (n <=? 57)%nat.

Fixpoint all_digits (s : string) : bool :=
  match s with
  | EmptyString => true
  | String c s' => is_digit c && all_digits s'
  end.

Definition newline : string := String (ascii_of_nat 10) EmptyString.

(** The digits a text starts with, counted, and what follows them. *)
Fixpoint leading_digits (s : string) : nat * string :=
  match s with
  | EmptyString => (O, s)
  | String c s' =>
      if is_digit c then
        let '(k, rest) := leading_digits s' in (S k, rest)
      else (O, s)
  end.

(** Whether [re.compile(r'^[0-9]{lo,hi}$').match(s)] finds a match:
    between [lo] and [hi] digits from the start, then the end of the text,
    which [$] also sees just before a newline that ends the text. *)
Definition match_digits (lo hi : nat) (s : string) : bool :=
  let '(k, rest) := leading_digits s in
  (lo <=? k)%nat && (k <=? hi)%nat &&
  (String.eqb rest EmptyString || String.eqb rest newline).

(** What the validators answer: valid, or one of their two refusals. *)
Inductive verdict := Valid | Empty | BadFormat.

(** [validate_pin_code], with [pin_pattern]. *)
Definition validate_pin_code (pin : string) : verdict :=
  match pin with
  | EmptyString => Empty
  | String _ _ => if negb (match_digits 4 10 pin) then BadFormat else Valid
  end.

(** [validate_twofa_code], with [twofa_code_pattern]. *)
Definition validate_twofa_code (code : string) : verdict :=
  match code with
  | EmptyString => Empty
  | String _ _ => if negb (match_digits 6 6 code) then BadFormat else Valid
  end.

End InputValidator.

(** * Properties *)

(** ** The access registry *)

Section AuthFacts.

Import Auth.

Implicit Types (m : AuthManager) (uid p : Z) (uname now : string).

Lemma str_inj (a b : Z) : Py.str a = Py.str b → a = b.
Proof. apply pretty_Z_inj. Qed.

(** Comparing the [str] of the ids is comparing the ids. *)
Lemma is_user_allowed_iff uid m :
  is_user_allowed uid m = true ↔ uid ∈ approved_ids m.
Proof.
  unfold is_user_allowed, approved_ids.
  rewrite bool_decide_eq_true, !list_elem_of_fmap. split.
  - intros (u & E & Hu). exists u. split; [by apply str_inj | done].
  - intros (u & -> & Hu). by exists u.
Qed.

Lemma is_user_allowed_false uid m :
  is_user_allowed uid m = false ↔ uid ∉ approved_ids m.
Proof.
  rewrite <- is_user_allowed_iff. destruct (is_user_allowed uid m); naive_solver.
Qed.

Lemma existsb_pending uid (l : list request_entry) :
  existsb (λ r, (req_user_id r =? uid)%Z) l = true ↔ uid ∈ req_user_id <$> l.
Proof.
  rewrite existsb_exists, list_elem_of_fmap. split.
  - intros (r & Hr & E). exists r. apply Z.eqb_eq in E.
    split; [done | by apply list_elem_of_In].
  - intros (r & -> & Hr). exists r. split; [by apply list_elem_of_In | apply Z.eqb_refl].
Qed.

Lemma filter_requests_ids uid (l : list request_entry) p :
  p ∈ req_user_id <$> filter (λ r, req_user_id r ≠ uid) l ↔
  p ≠ uid ∧ p ∈ req_user_id <$> l.
Proof.
  rewrite !list_elem_of_fmap. split.
  - intros (r & -> & Hr). apply list_elem_of_filter in Hr as [? ?]. eauto.
  - intros (Hne & r & -> & Hr). exists r. split; [done|].
    by apply list_elem_of_filter.
Qed.

Lemma filter_users_ids uid (l : list user_entry) p :
  p ∈ user_id <$> filter (λ u, user_id u ≠ uid) l ↔
  p ≠ uid ∧ p ∈ user_id <$> l.
Proof.
  rewrite !list_elem_of_fmap. split.
  - intros (r & -> & Hr). apply list_elem_of_filter in Hr as [? ?]. eauto.
  - intros (Hne & r & -> & Hr). exists r. split; [done|].
    by apply list_elem_of_filter.
Qed.

(** A filter that keeps the length keeps the list. *)
Lemma filter_length_eq {A : Type} (P : A → Prop) `{!∀ x, Decision (P x)} (l : list A) :
  length (filter P l) = length l → filter P l = l.
Proof.
  induction l as [|x l IH]; [done|].
  rewrite filter_cons. destruct (decide (P x)); simpl; intros E.
  - f_equal. apply IH. lia.
  - pose proof (length_filter P l). lia.
Qed.

(** *** Mutual exclusion of pending and approved *)

Lemma approve_user_exclusive uid uname now m :
  exclusive m → exclusive (approve_user uid uname now m).2.
Proof.
  unfold exclusive, approve_user, pending_ids, approved_ids.
  intros Hex p.
  destruct (is_user_allowed uid _) eqn:E; simpl.
  - rewrite filter_requests_ids. intros [[_ Hp] Ha]. by apply (Hex p).
  - rewrite filter_requests_ids, fmap_app, elem_of_app. simpl.
    intros [[Hne Hp] [Ha | Ha]].
    + by apply (Hex p).
    + apply list_elem_of_singleton in Ha. done.
Qed.

Lemma deny_user_exclusive uid uname m :
  exclusive m → exclusive (deny_user uid uname m).2.
Proof.
  unfold exclusive, deny_user, pending_ids, approved_ids.
  intros Hex p. simpl.
  destruct (_ <? _)%nat; simpl; rewrite filter_requests_ids;
    intros [[_ Hp] Ha]; by apply (Hex p).
Qed.

Lemma revoke_user_access_exclusive uid m :
  exclusive m → exclusive (revoke_user_access uid m).2.
Proof.
  unfold exclusive, revoke_user_access, pending_ids, approved_ids.
  intros Hex p. simpl.
  destruct (_ <? _)%nat; simpl; rewrite filter_users_ids;
    intros [Hp [_ Ha]]; by apply (Hex p).
Qed.

(** A request keeps the two lists apart as long as the requester is not
    approved yet. *)
Lemma add_user_request_exclusive uid uname now m :
  is_user_allowed uid m = false →
  exclusive m → exclusive (add_user_request uid uname now m).
Proof.
  unfold exclusive, add_user_request, pending_ids, approved_ids.
  intros Hna Hex p. apply is_user_allowed_false in Hna.
  destruct (existsb _ _); simpl; [apply Hex|].
  rewrite fmap_app, elem_of_app. simpl.
  intros [[Hp | Hp] Ha].
  - by apply (Hex p).
  - apply list_elem_of_singleton in Hp. subst. done.
Qed.

(** What the missing test costs: an approved user without a pending request
    who asks again is in both lists. *)
Lemma add_user_request_when_approved uid uname now m :
  is_user_allowed uid m = true →
  uid ∉ pending_ids m →
  let m' := add_user_request uid uname now m in
  uid ∈ pending_ids m' ∧ uid ∈ approved_ids m'.
Proof.
  intros Ha Hp. unfold add_user_request.
  destruct (existsb _ _) eqn:E.
  - apply existsb_pending in E. done.
  - simpl. unfold pending_ids, approved_ids. simpl. split.
    + rewrite fmap_app, elem_of_app. right. simpl. apply list_elem_of_here.
    + by apply is_user_allowed_iff in Ha.
Qed.

(** C2 (the code departs from the claim): from an empty registry, approving
    user 1 and then recording an access request of user 1 leaves user 1 both
    in the pending requests and among the approved users, so the mutual
    exclusion of the two lists does not survive [add_user_request]. *)
Theorem add_user_request_after_approval_breaks_exclusion :
  let m0 := run fresh [Approve 1 "alice" "t0"] in
  let m := add_user_request 1 "alice" "t1" m0 in
  exclusive m0 ∧ is_user_allowed 1 m0 = true ∧
  1 ∈ pending_ids m ∧ 1 ∈ approved_ids m ∧ ¬ exclusive m.
Proof.
  assert (Hin : 1 ∈ [1]) by apply list_elem_of_here.
  repeat split; try exact Hin; try reflexivity.
  - intros p [Hp _]. vm_compute in Hp. by apply elem_of_nil in Hp.
  - intros Hex. apply (Hex 1). split; exact Hin.
Qed.

(** *** Persistence *)

Lemma save_in_sync m :
  Py.writable (allowed_users_file m) = true → in_sync (_save_allowed_users m).
Proof. intros W. unfold in_sync. simpl. unfold Py.dump. by rewrite W. Qed.

(** The paths that do write: after them the file is the registry. *)
Lemma add_user_request_in_sync uid uname now m :
  Py.writable (allowed_users_file m) = true →
  in_sync m → in_sync (add_user_request uid uname now m).
Proof.
  intros W S. unfold add_user_request.
  destruct (existsb _ _); [done|]. by apply save_in_sync.
Qed.

Lemma deny_user_in_sync uid uname m :
  Py.writable (allowed_users_file m) = true →
  in_sync m → in_sync (deny_user uid uname m).2.
Proof.
  intros W S. unfold deny_user.
  destruct (_ <? _)%nat eqn:E; simpl.
  - by apply save_in_sync.
  - apply Nat.ltb_ge in E. simpl in E.
    pose proof (length_filter (λ r, req_user_id r ≠ uid) (pending_requests (allowed_users m))).
    unfold in_sync. simpl. rewrite filter_length_eq by lia.
    destruct m as [[us ps] f]. exact S.
Qed.

Lemma revoke_user_access_in_sync uid m :
  Py.writable (allowed_users_file m) = true →
  in_sync m → in_sync (revoke_user_access uid m).2.
Proof.
  intros W S. unfold revoke_user_access.
  destruct (_ <? _)%nat eqn:E; simpl.
  - by apply save_in_sync.
  - apply Nat.ltb_ge in E. simpl in E.
    pose proof (length_filter (λ u, user_id u ≠ uid) (users (allowed_users m))).
    unfold in_sync. simpl. rewrite filter_length_eq by lia.
    destruct m as [[us ps] f]. exact S.
Qed.

Lemma approve_user_new_in_sync uid uname now m :
  Py.writable (allowed_users_file m) = true →
  is_user_allowed uid m = false →
  in_sync (approve_user uid uname now m).2.
Proof.
  intros W Hna. unfold approve_user.
  replace (is_user_allowed uid _) with (is_user_allowed uid m) by reflexivity.
  rewrite Hna. simpl. by apply save_in_sync.
Qed.

(** The path that does not: an approved user who still has a pending
    request loses it in memory only. *)
Lemma approve_user_again_stale uid uname now m :
  is_user_allowed uid m = true →
  uid ∈ pending_ids m →
  in_sync m →
  let m' := (approve_user uid uname now m).2 in
  allowed_users_file m' = allowed_users_file m ∧
  allowed_users m' ≠ allowed_users m ∧ ¬ in_sync m'.
Proof.
  intros Ha Hp S. unfold approve_user.
  replace (is_user_allowed uid _) with (is_user_allowed uid m) by reflexivity.
  rewrite Ha. simpl.
  assert (Hne : Registry (users (allowed_users m))
                  (filter (λ r, req_user_id r ≠ uid) (pending_requests (allowed_users m)))
                ≠ allowed_users m).
  { intros E. apply (f_equal pending_requests) in E. simpl in E.
    unfold pending_ids in Hp. rewrite <- E in Hp.
    apply filter_requests_ids in Hp as [? _]. done. }
  repeat split; [done|].
  unfold in_sync in *. simpl. rewrite S. intros [= E]. by apply Hne.
Qed.

(** C3 (the code departs from the claim): user 1 is approved and has a
    pending request, the file holds the registry and accepts writes.
    [approve_user] for user 1 returns [False], drops the pending request
    from the registry in memory and returns without writing: the file still
    lists the request. *)
Theorem approve_user_already_approved_skips_save :
  let m := run fresh [Approve 1 "alice" "t0"; RequestAccess 1 "alice" "t1"] in
  let '(r, m') := approve_user 1 "alice" "t2" m in
  in_sync m ∧ Py.writable (allowed_users_file m) = true ∧
  r = false ∧
  pending_requests (allowed_users m) = [Request 1 "alice" "t1"] ∧
  pending_requests (allowed_users m') = [] ∧
  Py.content (allowed_users_file m') = Some (allowed_users m) ∧
  ¬ in_sync m'.
Proof.
  vm_compute. repeat split; try reflexivity. intros [=].
Qed.

(** *** Approval *)

Lemma entries_of_absent uid (l : list user_entry) :
  uid ∉ user_id <$> l → entries_of uid l = 0%nat.
Proof.
  unfold entries_of. induction l as [|u l IH]; [done|].
  rewrite fmap_cons, not_elem_of_cons. intros [Hne Hl].
  rewrite filter_cons. destruct (decide (user_id u = uid)); [congruence | auto].
Qed.

(** C8: [approve_user] leaves no pending request of the user.  A user who
    was not approved gets exactly one entry, appended to the list, and the
    call returns [True]; for a user who was approved the call returns
    [False] and the list of approved users is the one it was, so a list
    without duplicate ids stays without duplicates. *)
Theorem approve_user_spec uid uname now m :
  let '(r, m') := approve_user uid uname now m in
  pending_requests (allowed_users m') =
    filter (λ q, req_user_id q ≠ uid) (pending_requests (allowed_users m)) ∧
  (uid ∉ pending_ids m') ∧
  (if is_user_allowed uid m
   then r = false ∧ users (allowed_users m') = users (allowed_users m)
   else r = true ∧
        users (allowed_users m') = users (allowed_users m) ++ [User uid uname now] ∧
        entries_of uid (users (allowed_users m')) = 1%nat) ∧
  (NoDup (approved_ids m) → NoDup (approved_ids m')).
Proof.
  unfold approve_user.
  replace (is_user_allowed uid (Manager _ _)) with (is_user_allowed uid m) by reflexivity.
  destruct (is_user_allowed uid m) eqn:E; simpl.
  - repeat split; try done.
    unfold pending_ids. simpl. rewrite filter_requests_ids. by intros [? _].
  - apply is_user_allowed_false in E. repeat split; try done.
    + unfold pending_ids. simpl. rewrite filter_requests_ids. by intros [? _].
    + unfold entries_of. rewrite filter_app, length_app.
      fold (entries_of uid (users (allowed_users m))).
      rewrite entries_of_absent by done.
      rewrite filter_cons. simpl. by rewrite decide_True.
    + unfold approved_ids. simpl. rewrite fmap_app. simpl.
      intros ND. apply NoDup_app. repeat split; [done | | apply NoDup_singleton].
      intros x Hx Hx'. apply list_elem_of_singleton in Hx'. by subst.
Qed.

Lemma approve_user_spec_witness :
  let m := run fresh [RequestAccess 2 "bob" "t0"; Approve 2 "bob" "t1"] in
  NoDup (approved_ids m) ∧ NoDup (approved_ids (approve_user 2 "bob" "t2" m).2).
Proof.
  assert (H : NoDup (approved_ids
             (run fresh [RequestAccess 2 "bob" "t0"; Approve 2 "bob" "t1"]))).
  { vm_compute. apply NoDup_singleton. }
  split; [exact H|].
  pose proof (approve_user_spec 2 "bob" "t2"
    (run fresh [RequestAccess 2 "bob" "t0"; Approve 2 "bob" "t1"])) as S.
  destruct (approve_user 2 "bob" "t2" _) as [r m'].
  destruct S as (_ & _ & _ & ND). exact (ND H).
Defined.

End AuthFacts.

(** ** The second factor *)

Section Email2FAFacts.

Import Email2FA.

Implicit Types (s : Email2FA) (user_id : Z) (now : Py.datetime).

Lemma dump_dump {A : Type} (a b : A) (f : Py.file A) :
  Py.dump b (Py.dump a f) = Py.dump b f.
Proof. unfold Py.dump. destruct f as [c []]; reflexivity. Qed.

Lemma dump_keeps_writable {A : Type} (a : A) (f : Py.file A) :
  Py.writable (Py.dump a f) = Py.writable f.
Proof. unfold Py.dump. destruct f as [c []]; reflexivity. Qed.

Lemma dump_content {A : Type} (a : A) (f : Py.file A) :
  Py.writable f = true → Py.content (Py.dump a f) = Some a.
Proof. unfold Py.dump. by intros ->. Qed.

Lemma cleanup_keeps_writable now s :
  Py.writable (codes_file (_cleanup_expired_codes now s)) = Py.writable (codes_file s).
Proof.
  unfold _cleanup_expired_codes.
  destruct ((List.filter _ _).*1); simpl; [done | apply dump_keeps_writable].
Qed.

(** C1: the case analysis of [verify_code].  Without a stored challenge the
    call fails, cannot be retried and changes nothing.  With one: if it is
    expired (the clock is past [expires_at], or [expires_at] does not parse)
    it is discarded and the call fails without retry; else if [attempts]
    has reached [max_attempts], the same; else if the input is the stored
    code it is discarded and the call succeeds; else [attempts] grows by
    one, and either that reaches [max_attempts], the challenge is discarded
    and no retry is offered, or the challenge stays with the new count and
    the call offers a retry, its message carrying the attempts left. *)
Theorem verify_code_cases user_id (input_code : string) now s :
  let '(v, s') := verify_code user_id input_code now s in
  match codes s !! Py.str user_id with
  | None => v = Verdict false CodeNotFound false ∧ s' = s
  | Some info =>
      match Py.strptime (expires_at info) with
      | None => v = Verdict false CodeExpired false ∧ discarded user_id s s'
      | Some expiry_time =>
          if decide (expiry_time < now) then
            v = Verdict false CodeExpired false ∧ discarded user_id s s'
          else if decide (max_attempts info ≤ attempts info) then
            v = Verdict false AttemptsExceeded false ∧ discarded user_id s s'
          else if decide (input_code = code info) then
            v = Verdict true CodeConfirmed false ∧ discarded user_id s s'
          else if decide (max_attempts info ≤ attempts info + 1) then
            v = Verdict false AttemptsExceeded false ∧ discarded user_id s s'
          else
            v = Verdict false
                  (WrongCode (max_attempts info - (attempts info + 1))) true ∧
            codes s' =
              <[Py.str user_id :=
                  CodeInfo (code info) (expires_at info) (attempts info + 1)
                           (max_attempts info) (username info)]> (codes s) ∧
            codes_file s' = Py.dump (codes s') (codes_file s)
      end
  end.
Proof.
  unfold verify_code, discarded, _is_code_expired.
  destruct (codes s !! Py.str user_id) as [info|] eqn:L; [|done].
  destruct (Py.strptime (expires_at info)) as [e|]; [|done].
  destruct (Z.gtb_spec now e), (decide (e < now)); try lia; [done|].
  destruct (Z.geb_spec (attempts info) (max_attempts info)),
           (decide (max_attempts info ≤ attempts info)); try lia; [done|].
  destruct (String.eqb_spec input_code (code info)),
           (decide (input_code = code info)); try done.
  simpl.
  destruct (Z.gtb_spec (max_attempts info - (attempts info + 1)) 0),
           (decide (max_attempts info ≤ attempts info + 1)); try lia; [done|].
  simpl. rewrite delete_insert_eq, dump_dump. done.
Qed.

Lemma send_verification_code_delivered user_id uname new_code t0 s :
  let '(r, s') := send_verification_code user_id uname new_code t0 true s in
  r = Some new_code ∧
  codes s' !! Py.str user_id = Some (issued uname new_code t0).
Proof.
  unfold send_verification_code. simpl. split; [done|].
  apply lookup_insert_eq.
Qed.

(** C6, as the code has it: when the delivery fails,
    [send_verification_code] returns [None] and leaves no challenge of the
    user in memory; the file is rewritten without it too when it accepts
    writes ([_save_codes] only logs a failed write, so a file that refuses
    them keeps what it held). *)
Theorem send_verification_code_delivery_failure user_id uname new_code now s :
  let '(r, s') := send_verification_code user_id uname new_code now false s in
  r = None ∧
  ¬ in_memory user_id s' ∧
  (Py.writable (codes_file s) = true → ¬ persisted user_id s').
Proof.
  unfold send_verification_code, in_memory, persisted. simpl.
  rewrite lookup_insert_eq. simpl. rewrite lookup_delete_eq.
  split; [done|]. split.
  - by intros [? ?].
  - intros W (c & Hc & Hin). rewrite dump_dump in Hc.
    rewrite dump_content in Hc by (by rewrite cleanup_keeps_writable).
    injection Hc as <-. rewrite lookup_delete_eq in Hin. by destruct Hin.
Qed.

(** A file that refuses writes is left as it was, whatever it held. *)
Lemma send_verification_code_read_only user_id uname new_code now (delivered : bool) s :
  Py.writable (codes_file s) = false →
  codes_file (send_verification_code user_id uname new_code now delivered s).2
  = codes_file s.
Proof.
  intros W.
  assert (D : ∀ (c : gmap string code_info) f, Py.writable f = false → Py.dump c f = f).
  { intros c [x []]; [done | reflexivity]. }
  assert (C : codes_file (_cleanup_expired_codes now s) = codes_file s).
  { unfold _cleanup_expired_codes.
    destruct ((List.filter _ _).*1); simpl; [done | by apply D]. }
  unfold send_verification_code. simpl. rewrite lookup_insert_eq.
  destruct delivered; simpl; rewrite ?C, !D; try done; by rewrite ?C, ?D.
Qed.

Lemma send_verification_code_delivery_failure_witness :
  let s := init (Py.File None true) in
  Py.writable (codes_file s) = true ∧
  ¬ persisted 5 (send_verification_code 5 "bob" "123456" 1500000 false s).2.
Proof.
  split; [reflexivity|].
  pose proof (send_verification_code_delivery_failure 5 "bob" "123456" 1500000
                (init (Py.File None true))) as H.
  destruct (send_verification_code 5 "bob" "123456" 1500000 false _) as [r s'].
  destruct H as (_ & _ & H). apply H. reflexivity.
Defined.

(** C6, as the claim has it, fails for the persisted record: a file that
    refuses writes and holds an earlier challenge of user 5 still holds it
    after a failed delivery, while memory has none. *)
Lemma delivery_failure_read_only_file_keeps_challenge :
  let old := CodeInfo "111111" (Py.Stamp 4000) 0 3 "bob" in
  let s := init (Py.File (Some {[Py.str 5 := old]}) false) in
  let '(r, s') := send_verification_code 5 "bob" "123456" 1500000 false s in
  r = None ∧ ¬ in_memory 5 s' ∧ persisted 5 s'.
Proof.
  intros old s.
  pose proof (send_verification_code_read_only 5 "bob" "123456" 1500000 false s
                eq_refl) as F.
  assert (M : codes (send_verification_code 5 "bob" "123456" 1500000 false s).2
                !! Py.str 5 = None).
  { unfold send_verification_code. simpl. rewrite lookup_insert_eq. simpl.
    apply lookup_delete_eq. }
  assert (R : (send_verification_code 5 "bob" "123456" 1500000 false s).1 = None).
  { unfold send_verification_code. simpl. by rewrite lookup_insert_eq. }
  destruct (send_verification_code 5 "bob" "123456" 1500000 false s) as [r s'].
  cbn [fst snd] in *. split; [exact R|]. split.
  - unfold in_memory. rewrite M. by intros [? ?].
  - exists {[Py.str 5 := old]}. rewrite F. split; [reflexivity|].
    rewrite lookup_singleton_eq. by eexists.
Qed.

(** A live challenge is consumed by the right code: the first call
    succeeds, the second finds nothing. *)
Lemma verify_code_consumes user_id now later s info :
  codes s !! Py.str user_id = Some info →
  _is_code_expired now (expires_at info) = false →
  attempts info < max_attempts info →
  let '(v1, s1) := verify_code user_id (code info) now s in
  let '(v2, s2) := verify_code user_id (code info) later s1 in
  v1 = Verdict true CodeConfirmed false ∧
  ¬ in_memory user_id s1 ∧
  v2 = Verdict false CodeNotFound false ∧ s2 = s1.
Proof.
  intros L E A.
  assert (V : verify_code user_id (code info) now s =
              (Verdict true CodeConfirmed false,
               _save_codes (Manager (delete (Py.str user_id) (codes s)) (codes_file s)))).
  { unfold verify_code. rewrite L, E.
    destruct (Z.geb_spec (attempts info) (max_attempts info)); [lia|].
    by rewrite String.eqb_refl. }
  rewrite V. unfold verify_code, in_memory. simpl. rewrite lookup_delete_eq.
  repeat split; done.
Qed.

(** C7: after [send_verification_code] has stored and delivered a code, a
    [verify_code] with that code, no later than the stored expiry, succeeds,
    and the same call repeated (at any time) fails without retry, the
    challenge being gone.  The same holds from any state that holds a
    challenge which is not expired and has attempts left. *)
Theorem verify_code_succeeds_exactly_once user_id uname new_code t0 t1 t2 s :
  (let '(r, s0) := send_verification_code user_id uname new_code t0 true s in
   let '(v1, s1) := verify_code user_id new_code t1 s0 in
   let '(v2, s2) := verify_code user_id new_code t2 s1 in
   t1 ≤ (t0 + 3600000000) / 1000000 * 1000000 →
   r = Some new_code ∧
   v1 = Verdict true CodeConfirmed false ∧ ¬ in_memory user_id s1 ∧
   v2 = Verdict false CodeNotFound false) ∧
  (∀ info,
     codes s !! Py.str user_id = Some info →
     _is_code_expired t1 (expires_at info) = false →
     attempts info < max_attempts info →
     let '(v1, s1) := verify_code user_id (code info) t1 s in
     let '(v2, s2) := verify_code user_id (code info) t2 s1 in
     v1 = Verdict true CodeConfirmed false ∧ ¬ in_memory user_id s1 ∧
     v2 = Verdict false CodeNotFound false).
Proof.
  split.
  - pose proof (send_verification_code_delivered user_id uname new_code t0 s) as D.
    destruct (send_verification_code user_id uname new_code t0 true s) as [r s0].
    destruct D as [-> L].
    pose proof (verify_code_consumes user_id t1 t2 s0 _ L) as V. simpl in V.
    destruct (verify_code user_id new_code t1 s0) as [v1 s1].
    destruct (verify_code user_id new_code t2 s1) as [v2 s2].
    intros T.
    assert (E : _is_code_expired t1 (expires_at (issued uname new_code t0)) = false).
    { unfold _is_code_expired. simpl. rewrite Z.gtb_ltb. apply Z.ltb_ge. exact T. }
    assert (A : attempts (issued uname new_code t0) <
                max_attempts (issued uname new_code t0)) by reflexivity.
    by destruct (V E A) as (? & ? & ? & ?).
  - intros info L E A.
    pose proof (verify_code_consumes user_id t1 t2 s info L E A) as V.
    destruct (verify_code user_id (code info) t1 s) as [v1 s1].
    destruct (verify_code user_id (code info) t2 s1) as [v2 s2].
    by destruct V as (? & ? & ? & ?).
Qed.

Lemma verify_code_succeeds_exactly_once_witness :
  let s := (send_verification_code 5 "bob" "123456" 0 true (init (Py.File None true))).2 in
  (verify_code 5 "123456" 1500000 (send_verification_code 5 "bob" "123456" 0 true s).2).1
    = Verdict true CodeConfirmed false ∧
  (verify_code 5 "123456" 1500000 s).1 = Verdict true CodeConfirmed false.
Proof.
  intros s.
  destruct (verify_code_succeeds_exactly_once 5 "bob" "123456" 0 1500000 1600000 s)
    as [A B].
  split.
  - destruct (send_verification_code 5 "bob" "123456" 0 true s) as [r s0].
    simpl. destruct (verify_code 5 "123456" 1500000 s0) as [v1 s1].
    destruct (verify_code 5 "123456" 1600000 s1) as [v2 s2].
    simpl. apply A. vm_compute. intros [=].
  - specialize (B (issued "bob" "123456" 0)). simpl in B.
    destruct (verify_code 5 "123456" 1500000 s) as [v1 s1].
    destruct (verify_code 5 "123456" 1600000 s1) as [v2 s2].
    simpl. apply B; reflexivity.
Defined.

End Email2FAFacts.

(** ** Strings: [in] and [rsplit] *)

Section StringFacts.

Implicit Types (s sub sep a b tok : string) (c : ascii).

Lemma append_cons c a s : String c a +:+ s = String c (a +:+ s).
Proof. reflexivity. Qed.

Lemma append_empty s : "" +:+ s = s.
Proof. reflexivity. Qed.

Lemma prefix_iff sub s :
  String.prefix sub s = true ↔ ∃ b, s = sub +:+ b.
Proof.
  revert s. induction sub as [|c sub IH]; intros s.
  - split; [intros _; by exists s | intros _; by destruct s].
  - destruct s as [|c' s]; [split; [done | intros [b [=]]]|].
    simpl. destruct (ascii_dec c c') as [->|Hne].
    + rewrite IH. split; intros [b E]; exists b.
      * rewrite append_cons. congruence.
      * rewrite append_cons in E. congruence.
    + split; [done | intros [b E]]. rewrite append_cons in E. congruence.
Qed.

Lemma contains_empty sub :
  Py.contains sub "" = String.prefix sub "" || false.
Proof. reflexivity. Qed.

Lemma contains_cons sub c s :
  Py.contains sub (String c s) = String.prefix sub (String c s) || Py.contains sub s.
Proof. reflexivity. Qed.

(** [contains] is the substring test. *)
Lemma contains_iff sub s :
  Py.contains sub s = true ↔ ∃ a b, s = a +:+ sub +:+ b.
Proof.
  split.
  - induction s as [|c s IH].
    + rewrite contains_empty, orb_true_iff.
      intros [P | [=]]. apply prefix_iff in P as [b ->]. by exists "", b.
    + rewrite contains_cons, orb_true_iff. intros [P | C].
      * apply prefix_iff in P as [b ->]. by exists "", b.
      * destruct (IH C) as (a & b & ->). by exists (String c a), b.
  - intros (a & b & ->). induction a as [|c a IH].
    + rewrite append_empty.
      assert (P : String.prefix sub (sub +:+ b) = true)
        by (apply prefix_iff; by exists b).
      destruct (sub +:+ b).
      * by rewrite contains_empty, P.
      * by rewrite contains_cons, P.
    + rewrite append_cons, contains_cons, IH. apply orb_true_r.
Qed.

Lemma contains_false sub s :
  Py.contains sub s = false ↔ ∀ a b, s ≠ a +:+ sub +:+ b.
Proof.
  rewrite <- not_true_iff_false, contains_iff. split.
  - intros N a b E. apply N. by exists a, b.
  - intros N (a & b & E). by apply (N a b).
Qed.








Lemma rsplit1_pair (sep txt : string) :
  sep ≠ "" → Py.contains sep txt = true →
  ∃ front back : string, Py.rsplit1 sep txt = [front; back].
Proof.
  intros Hsep. induction txt as [|c txt IH].
  - rewrite contains_empty, orb_false_r. destruct sep; [done | discriminate].
  - rewrite contains_cons. intros H.
    destruct (Py.contains sep txt) eqn:C.
    + destruct (IH eq_refl) as (d & t & E).
      exists (String c d), t. cbn [Py.rsplit1]. by rewrite E.
    + rewrite orb_false_r in H. cbn [Py.rsplit1]. rewrite H.
      destruct (Py.rsplit1 sep txt) as [|d [|t [|x l]]]; eauto.
Qed.

Lemma rsplit1_pair_contains (sep txt front back : string) :
  Py.rsplit1 sep txt = [front; back] → Py.contains sep txt = true.
Proof.
  revert front back. induction txt as [|c txt IH]; intros front back; [done|].
  cbn [Py.rsplit1]. rewrite contains_cons.
  destruct (Py.rsplit1 sep txt) as [|d [|t [|x l]]] eqn:E.
  - destruct (String.prefix sep (String c txt)); [done | discriminate].
  - destruct (String.prefix sep (String c txt)); [done | discriminate].
  - intros _. rewrite (IH d t eq_refl). apply orb_true_r.
  - destruct (String.prefix sep (String c txt)); [done | discriminate].
Qed.

End StringFacts.

(** ** Tokens bound to callback data *)

Section CSRFFacts.

Import CSRF.

Implicit Types (s : CSRFManager) (p q : Z) (a tok fresh : string)
               (now t : Py.datetime).

Lemma init_well_formed : well_formed init.
Proof.
  split; intros u.
  - unfold init. simpl. rewrite lookup_empty. by intros [? ?].
  - intros t. unfold init. simpl. by rewrite lookup_empty.
Qed.

Lemma cleanup_well_formed p s :
  well_formed s → well_formed (_cleanup_user_token p s).
Proof.
  intros [D U]. split; simpl.
  - intros u. destruct (decide (p = u)) as [->|Hne].
    + rewrite lookup_delete_eq. by intros [? ?].
    + rewrite !lookup_delete_ne by done. apply D.
  - intros u t. destruct (decide (p = u)) as [->|Hne].
    + by rewrite lookup_delete_eq.
    + rewrite lookup_delete_ne by done. apply U.
Qed.

Lemma generate_well_formed p fresh now s :
  urlsafe fresh = true → well_formed s →
  well_formed (generate_token p fresh now s).2.
Proof.
  intros F [D U]. split; simpl.
  - intros u. destruct (decide (p = u)) as [->|Hne].
    + rewrite !lookup_insert_eq. eauto.
    + rewrite !lookup_insert_ne by done. apply D.
  - intros u t. destruct (decide (p = u)) as [->|Hne].
    + rewrite lookup_insert_eq. by intros [= <-].
    + rewrite lookup_insert_ne by done. apply U.
Qed.

(** What [add_csrf_to_callback_data] returns and leaves behind. *)
Lemma add_csrf_to_callback_data_bound p a fresh now s :
  well_formed s → urlsafe fresh = true →
  ∃ tok e s1,
    add_csrf_to_callback_data p a fresh now s =
      Py.Returned (a +:+ delimiter +:+ tok) s1 ∧
    user_tokens s1 !! p = Some tok ∧
    token_expiry s1 !! p = Some e ∧
    now ≤ e ∧ urlsafe tok = true ∧ well_formed s1.
Proof.
  intros WF F. pose proof WF as [D U].
  assert (G : ∀ s0, well_formed s0 →
    ∃ tok e s1,
      generate_token p fresh now s0 = (tok, s1) ∧
      user_tokens s1 !! p = Some tok ∧ token_expiry s1 !! p = Some e ∧
      now ≤ e ∧ urlsafe tok = true ∧ well_formed s1).
  { intros s0 W0. eexists _, _, _. split; [reflexivity|]. simpl.
    rewrite !lookup_insert_eq. repeat split; try done.
    - unfold Py.timedelta_seconds, token_lifetime, Py.microseconds_per_second. lia.
    - by apply (generate_well_formed p fresh now s0).
    - by apply (generate_well_formed p fresh now s0). }
  unfold add_csrf_to_callback_data, get_user_token.
  destruct (user_tokens s !! p) as [stored|] eqn:L.
  - destruct (D p (mk_is_Some _ _ L)) as [e He].
    destruct (token_expiry s !! p) as [e0|] eqn:E0; [injection He as ->|done].
    destruct (Z.gtb_spec now e) as [X|X].
    + destruct (G _ (cleanup_well_formed p s WF)) as (tok & e' & s1 & -> & ?).
      by exists tok, e', s1.
    + destruct stored as [|c stored].
      * destruct (G _ WF) as (tok & e' & s1 & -> & ?). by exists tok, e', s1.
      * exists (String c stored), e, s. repeat split; try done. by apply (U p).
  - destruct (G _ WF) as (tok & e' & s1 & -> & ?). by exists tok, e', s1.
Qed.



(** [extract_callback_data] on data that [rsplit] cuts in two: the second
    part is what [validate_token] sees, the first what is handed back. *)
Lemma extract_callback_data_split p (data front part : string) now s :
  Py.rsplit1 delimiter data = [front; part] →
  extract_callback_data p data now s =
    match validate_token p part now s with
    | Py.Raised e s1 => Py.Raised e s1
    | Py.Returned false s1 => Py.Returned None s1
    | Py.Returned true s1 => Py.Returned (Some front) s1
    end.
Proof.
  intros E. unfold extract_callback_data.
  by rewrite (rsplit1_pair_contains _ _ _ _ E), E.
Qed.





(** C9: callback data without the delimiter are refused: the call returns
    [None] and the tokens on record are what they were. *)
Theorem extract_callback_data_without_delimiter p (callback_data : string) now s :
  (∀ a tok, callback_data ≠ a +:+ delimiter +:+ tok) →
  extract_callback_data p callback_data now s = Py.Returned None s.
Proof.
  intros N. apply contains_false in N.
  unfold extract_callback_data. by rewrite N.
Qed.

Lemma extract_callback_data_without_delimiter_witness :
  (∀ a tok, "approve_42" ≠ a +:+ delimiter +:+ tok) ∧
  extract_callback_data 7 "approve_42" 1000 (generate_token 7 "AbC-_9xyz01" 0 init).2
  = Py.Returned None (generate_token 7 "AbC-_9xyz01" 0 init).2.
Proof.
  assert (N : ∀ a tok, "approve_42" ≠ a +:+ delimiter +:+ tok).
  { apply contains_false. reflexivity. }
  split; [exact N|].
  apply (extract_callback_data_without_delimiter 7 "approve_42" 1000 _ N).
Defined.

End CSRFFacts.

(** ** Numbers: comparison, [min] and [int] *)

Section NumberFacts.

Implicit Types (x y m t : Q) (l : list Q) (w : Z).

Lemma Qlt_bool_iff x y : Py.Qlt_bool x y = true ↔ (x < y)%Q.
Proof.
  unfold Py.Qlt_bool. rewrite negb_true_iff, <- not_true_iff_false, Qle_bool_iff.
  split; [apply Qnot_le_lt | apply Qlt_not_le].
Qed.

Lemma Qlt_bool_false x y : Py.Qlt_bool x y = false ↔ (y <= x)%Q.
Proof.
  unfold Py.Qlt_bool. by rewrite negb_false_iff, Qle_bool_iff.
Qed.

(** [int] is the floor of a number that is not negative and the ceiling of
    one that is not positive. *)
Lemma int_floor x : 0 ≤ Qnum x → Py.int x = Qfloor x.
Proof.
  destruct x as [n d]. simpl. intros H. unfold Py.int. simpl.
  apply Z.quot_div_nonneg; lia.
Qed.

Lemma int_ceiling x : Qnum x ≤ 0 → Py.int x = Qceiling x.
Proof.
  destruct x as [n d]. simpl. intros H. unfold Py.int, Qceiling. simpl.
  rewrite <- (Z.quot_div_nonneg (- n) (Z.pos d)) by lia.
  rewrite Z.quot_opp_l by lia. lia.
Qed.

(** Truncation keeps the order. *)
Lemma int_le x y : (x <= y)%Q → Py.int x ≤ Py.int y.
Proof.
  intros H.
  destruct (Z_le_gt_dec 0 (Qnum x)) as [Hx|Hx], (Z_le_gt_dec 0 (Qnum y)) as [Hy|Hy].
  - rewrite !int_floor by done. by apply Qfloor_resp_le.
  - exfalso. unfold Qle in H. nia.
  - rewrite int_ceiling, int_floor by lia.
    assert (X0 : (x <= 0)%Q) by (unfold Qle; simpl; lia).
    assert (Y0 : (0 <= y)%Q) by (unfold Qle; simpl; lia).
    apply Qceiling_resp_le in X0. apply Qfloor_resp_le in Y0.
    change (Qceiling 0) with 0 in X0. change (Qfloor 0) with 0 in Y0. lia.
  - rewrite !int_ceiling by lia. by apply Qceiling_resp_le.
Qed.

(** [min] returns an element that no other is below. *)
Lemma fold_min_spec l x :
  let m := fold_left (λ m y, if Py.Qlt_bool y m then y else m) l x in
  m ∈ x :: l ∧ ∀ y, y ∈ x :: l → (m <= y)%Q.
Proof.
  revert x. induction l as [|z l IH]; intros x; simpl.
  - split; [apply list_elem_of_here|].
    intros y Hy. apply list_elem_of_singleton in Hy as ->. apply Qle_refl.
  - destruct (Py.Qlt_bool z x) eqn:E.
    + apply Qlt_bool_iff in E. destruct (IH z) as [Hin Hle]. split.
      * by apply list_elem_of_further.
      * intros y Hy. apply elem_of_cons in Hy as [->|Hy]; [|by apply Hle].
        apply Qle_trans with z; [apply Hle, list_elem_of_here | by apply Qlt_le_weak].
    + apply Qlt_bool_false in E. destruct (IH x) as [Hin Hle]. split.
      * apply elem_of_cons in Hin as [->|Hin]; [apply list_elem_of_here|].
        by do 2 apply list_elem_of_further.
      * intros y Hy. apply elem_of_cons in Hy as [->|Hy].
        { apply Hle, list_elem_of_here. }
        apply elem_of_cons in Hy as [->|Hy].
        { apply Qle_trans with x; [apply Hle, list_elem_of_here | done]. }
        by apply Hle, list_elem_of_further.
Qed.

Lemma min_spec l m :
  Py.min l = Some m → m ∈ l ∧ ∀ y, y ∈ l → (m <= y)%Q.
Proof.
  destruct l as [|x l]; [done|]. intros [= <-]. apply fold_min_spec.
Qed.

Lemma min_is_Some l : l ≠ [] → is_Some (Py.min l).
Proof. destruct l; [done | by eexists]. Qed.

(** Dropping old readings. *)
Lemma recent_elem w t l x :
  x ∈ RateLimiter.recent w t l ↔ x ∈ l ∧ (t - x < inject_Z w)%Q.
Proof.
  unfold RateLimiter.recent.
  rewrite !list_elem_of_In, filter_In, Qlt_bool_iff. done.
Qed.

Lemma recent_length w t l :
  (length (RateLimiter.recent w t l) ≤ length l)%nat.
Proof. apply filter_length_le. Qed.

Lemma recent_all w t l :
  (∀ x, x ∈ l → (t - x < inject_Z w)%Q) → RateLimiter.recent w t l = l.
Proof.
  unfold RateLimiter.recent. induction l as [|x l IH]; [done|]. intros H. simpl.
  assert (E : Py.Qlt_bool (t - x) (inject_Z w) = true)
    by apply Qlt_bool_iff, H, list_elem_of_here.
  rewrite E. f_equal. apply IH. intros y Hy. by apply H, list_elem_of_further.
Qed.

Lemma recent_none w t l :
  (∀ x, x ∈ l → (inject_Z w <= t - x)%Q) → RateLimiter.recent w t l = [].
Proof.
  unfold RateLimiter.recent. induction l as [|x l IH]; [done|]. intros H. simpl.
  assert (E : Py.Qlt_bool (t - x) (inject_Z w) = false)
    by apply Qlt_bool_false, H, list_elem_of_here.
  rewrite E. apply IH. intros y Hy. by apply H, list_elem_of_further.
Qed.

Lemma recent_full w t l :
  length (RateLimiter.recent w t l) = length l → RateLimiter.recent w t l = l.
Proof.
  unfold RateLimiter.recent. induction l as [|x l IH]; [done|]. simpl.
  destruct (Py.Qlt_bool (t - x) (inject_Z w)); simpl; intros E.
  - f_equal. apply IH. lia.
  - pose proof (filter_length_le
      (λ a, Py.Qlt_bool (t - a) (inject_Z w)) l). lia.
Qed.

End NumberFacts.

(** ** The sliding windows *)

Section RateLimiterFacts.

Import RateLimiter.

Implicit Types (s : RateLimiter) (c : category) (d : gmap Z (list Q))
               (u w n : Z) (t : Q) (l times : list Q).

(** *** One dictionary *)

Lemma check_window_allowed w n u t d :
  let kept := recent w t (default [] (d !! u)) in
  Z.of_nat (length kept) < n →
  check_window w n u t d =
    Py.Returned (Allowed (n - Z.of_nat (length (kept ++ [t]))))
                (<[u := kept ++ [t]]> d).
Proof.
  intros kept H. unfold check_window. fold kept.
  destruct (Z.geb_spec (Z.of_nat (length kept)) n); [lia|].
  by rewrite insert_insert_eq.
Qed.

Lemma check_window_denied w n u t d oldest :
  let kept := recent w t (default [] (d !! u)) in
  n ≤ Z.of_nat (length kept) →
  Py.min kept = Some oldest →
  check_window w n u t d =
    Py.Returned (Denied (Py.int (inject_Z w - (t - oldest)))) (<[u := kept]> d).
Proof.
  intros kept H M. unfold check_window. fold kept.
  destruct (Z.geb_spec (Z.of_nat (length kept)) n); [|lia].
  by rewrite M.
Qed.

(** What a returning call returned, read back from its result. *)
Lemma check_window_returned w n u t d v d' :
  check_window w n u t d = Py.Returned v d' →
  let kept := recent w t (default [] (d !! u)) in
  (Z.of_nat (length kept) < n ∧
   v = Allowed (n - Z.of_nat (length (kept ++ [t]))) ∧
   d' = <[u := kept ++ [t]]> d) ∨
  (n ≤ Z.of_nat (length kept) ∧
   ∃ oldest, Py.min kept = Some oldest ∧
     v = Denied (Py.int (inject_Z w - (t - oldest))) ∧
     d' = <[u := kept]> d).
Proof.
  intros H kept. unfold check_window in H. fold kept in H.
  destruct (Z.geb_spec (Z.of_nat (length kept)) n).
  - right. split; [lia|]. destruct (Py.min kept) as [m|]; [|done].
    injection H as <- <-. by exists m.
  - left. split; [lia|]. injection H as <- <-. by rewrite insert_insert_eq.
Qed.

(** The list of the user after a call, however the call ended. *)
Lemma check_window_history w n u t d :
  let kept := recent w t (default [] (d !! u)) in
  default [] (state_of (check_window w n u t d) !! u) =
    if Z.of_nat (length kept) >=? n then kept else kept ++ [t].
Proof.
  intros kept. unfold check_window. fold kept.
  destruct (Z.of_nat (length kept) >=? n).
  - destruct (Py.min kept); simpl; by rewrite lookup_insert_eq.
  - simpl. by rewrite lookup_insert_eq.
Qed.

(** Calls that all fall inside one window of each other and of what is on
    record drop nothing, so the list only grows until it is full. *)
Lemma burst_fills_window w n u times d :
  (∀ x y, x ∈ default [] (d !! u) ++ times → y ∈ times → (y - x < inject_Z w)%Q) →
  let d' := fold_left (λ d0 t, state_of (check_window w n u t d0)) times d in
  (∀ x, x ∈ default [] (d' !! u) → x ∈ default [] (d !! u) ++ times) ∧
  Z.min n (Z.of_nat (length (default [] (d !! u)) + length times))
    ≤ Z.of_nat (length (default [] (d' !! u))).
Proof.
  revert d. induction times as [|t times IH]; intros d H; simpl.
  - split; [intros x; by rewrite app_nil_r|]. rewrite Nat.add_0_r. lia.
  - set (d1 := state_of (check_window w n u t d)).
    assert (K : recent w t (default [] (d !! u)) = default [] (d !! u)).
    { apply recent_all. intros x Hx. apply H.
      - apply elem_of_app. by left.
      - apply list_elem_of_here. }
    pose proof (check_window_history w n u t d) as E. simpl in E.
    rewrite K in E. fold d1 in E.
    assert (S1 : ∀ x, x ∈ default [] (d1 !! u) → x ∈ default [] (d !! u) ++ [t]).
    { intros x. rewrite E. destruct (_ >=? _); [|done].
      intros Hx. apply elem_of_app. by left. }
    destruct (IH d1) as [Hsub Hlen].
    { intros x y Hx Hy. apply H; [|by apply list_elem_of_further].
      apply elem_of_app in Hx as [Hx|Hx].
      - apply S1, elem_of_app in Hx as [Hx|Hx].
        + apply elem_of_app. by left.
        + apply list_elem_of_singleton in Hx as ->.
          apply elem_of_app. right. apply list_elem_of_here.
      - apply elem_of_app. right. by apply list_elem_of_further. }
    split.
    + intros x Hx. apply Hsub, elem_of_app in Hx as [Hx|Hx].
      * apply S1, elem_of_app in Hx as [Hx|Hx].
        { apply elem_of_app. by left. }
        apply list_elem_of_singleton in Hx as ->.
        apply elem_of_app. right. apply list_elem_of_here.
      * apply elem_of_app. right. by apply list_elem_of_further.
    + rewrite E in Hlen.
      destruct (Z.geb_spec (Z.of_nat (length (default [] (d !! u)))) n).
      * lia.
      * rewrite length_app in Hlen. simpl in Hlen. lia.
Qed.

(** *** The three categories *)

Lemma check_eq c u t s :
  check c u t s =
    lift (set_attempts c) s
      (check_window (window_of c s) (maximum_of c s) u t (attempts_of c s)).
Proof. by destruct c. Qed.

Lemma attempts_of_set c d s : attempts_of c (set_attempts c d s) = d.
Proof. by destruct c. Qed.

Lemma window_of_set c d s : window_of c (set_attempts c d s) = window_of c s.
Proof. by destruct c. Qed.

Lemma maximum_of_set c d s : maximum_of c (set_attempts c d s) = maximum_of c s.
Proof. by destruct c. Qed.

Lemma state_of_lift {A : Type} c s (o : Py.outcome A (gmap Z (list Q))) :
  state_of (lift (set_attempts c) s o) = set_attempts c (state_of o) s.
Proof. by destruct o. Qed.

Lemma checks_spec c u times s :
  attempts_of c (checks c u times s) =
    fold_left (λ d0 t, state_of (check_window (window_of c s) (maximum_of c s) u t d0))
              times (attempts_of c s) ∧
  window_of c (checks c u times s) = window_of c s ∧
  maximum_of c (checks c u times s) = maximum_of c s.
Proof.
  unfold checks. revert s. induction times as [|t times IH]; intros s; [done|].
  simpl. destruct (IH (state_of (check c u t s))) as (A & W & M).
  rewrite A, W, M, check_eq, state_of_lift.
  by rewrite attempts_of_set, window_of_set, maximum_of_set.
Qed.

Lemma check_returned c u t s v s' :
  check c u t s = Py.Returned v s' →
  ∃ d', check_window (window_of c s) (maximum_of c s) u t (attempts_of c s)
          = Py.Returned v d' ∧ s' = set_attempts c d' s.
Proof.
  rewrite check_eq.
  destruct (check_window _ _ _ _ _) as [v0 d0|]; [|done].
  intros [= <- <-]. by exists d0.
Qed.

Lemma history_set c u d s :
  history c u (set_attempts c d s) = default [] (d !! u).
Proof. unfold history. by rewrite attempts_of_set. Qed.

(** C5, as the code has it: the wait that a denied call reports is cut to
    whole seconds by [int].  For every category and user:
    - after as many calls as the maximum, all of them and the next one
      within one window of each other and of the readings on record, the
      next call is denied, and reports [int(window - (now - oldest))] for
      the oldest reading that survives;
    - once the window has passed over every reading on record, a call is
      allowed again;
    - an allowed call appends the current time to the surviving readings
      and reports the maximum less the new length;
    - a denied call reports [int(window - (now - oldest))], [oldest] being
      the least surviving reading. *)
Theorem check_sliding_window c u :
  (∀ s times t,
     1 ≤ maximum_of c s →
     length times = Z.to_nat (maximum_of c s) →
     (∀ x y, x ∈ history c u s ++ times → y ∈ times ++ [t] →
             (y - x < inject_Z (window_of c s))%Q) →
     ∃ oldest s',
       check c u t (checks c u times s) =
         Py.Returned (Denied (Py.int (inject_Z (window_of c s) - (t - oldest)))) s' ∧
       Py.min (recent (window_of c s) t (history c u (checks c u times s)))
         = Some oldest) ∧
  (∀ s t,
     1 ≤ maximum_of c s →
     (∀ x, x ∈ history c u s → (inject_Z (window_of c s) <= t - x)%Q) →
     ∃ s', check c u t s = Py.Returned (Allowed (maximum_of c s - 1)) s' ∧
           history c u s' = [t]) ∧
  (∀ s t r s',
     check c u t s = Py.Returned (Allowed r) s' →
     history c u s' = recent (window_of c s) t (history c u s) ++ [t] ∧
     r = maximum_of c s - Z.of_nat (length (history c u s'))) ∧
  (∀ s t r s',
     check c u t s = Py.Returned (Denied r) s' →
     ∃ oldest,
       Py.min (recent (window_of c s) t (history c u s)) = Some oldest ∧
       (∀ x, x ∈ recent (window_of c s) t (history c u s) → (oldest <= x)%Q) ∧
       r = Py.int (inject_Z (window_of c s) - (t - oldest))).
Proof.
  repeat split.
  - intros s times t Hn Hlen Hin.
    destruct (checks_spec c u times s) as (A & W & M).
    destruct (burst_fills_window (window_of c s) (maximum_of c s) u times
                (attempts_of c s)) as [Hsub Hfull].
    { intros x y Hx Hy. apply Hin; [done|]. apply elem_of_app. by left. }
    rewrite <- A in Hsub, Hfull. fold (history c u s) in Hsub, Hfull.
    fold (history c u (checks c u times s)) in Hsub, Hfull.
    assert (K : recent (window_of c s) t (history c u (checks c u times s))
                = history c u (checks c u times s)).
    { apply recent_all. intros x Hx. apply Hin; [by apply Hsub|].
      apply elem_of_app. right. apply list_elem_of_here. }
    assert (F : maximum_of c s ≤ Z.of_nat (length (history c u (checks c u times s))))
      by lia.
    destruct (min_is_Some (history c u (checks c u times s))) as [oldest Hmin].
    { intros E. rewrite E in F. simpl in F. lia. }
    exists oldest. eexists. rewrite K. split; [|done].
    rewrite check_eq, W, M.
    rewrite (check_window_denied _ _ _ _ _ oldest); [reflexivity | | ].
    + fold (history c u (checks c u times s)). by rewrite K.
    + fold (history c u (checks c u times s)). by rewrite K.
  - intros s t Hn Hold. eexists. rewrite check_eq.
    pose proof (recent_none (window_of c s) t (history c u s) Hold) as K.
    unfold history in K. rewrite check_window_allowed by (rewrite K; simpl; lia).
    rewrite K. simpl. split; [reflexivity|].
    rewrite history_set. by rewrite lookup_insert_eq.
  - apply check_returned in H as (d' & H & ->).
    apply check_window_returned in H as [(_ & _ & ->)|(_ & m & _ & [=] & _)].
    rewrite history_set. by rewrite lookup_insert_eq.
  - apply check_returned in H as (d' & H & ->).
    apply check_window_returned in H as [(_ & [= ->] & ->)|(_ & m & _ & [=] & _)].
    rewrite history_set. by rewrite lookup_insert_eq.
  - intros s t r s' H.
    apply check_returned in H as (d' & H & ->).
    apply check_window_returned in H as [(_ & [=] & _)|(_ & m & Hm & [= ->] & _)].
    exists m. split; [done|]. split; [|done].
    by apply min_spec.
Qed.

(** *** Concrete runs with the default settings *)

Ltac each_member H :=
  repeat (apply elem_of_cons in H as [->|H]);
  try (apply elem_of_nil in H; destruct H).

Lemma five_pin_attempts :
  history Pin 1 (checks Pin 1 [0%Q; 0%Q; 0%Q; 0%Q; 0%Q] defaults)
  = [0%Q; 0%Q; 0%Q; 0%Q; 0%Q].
Proof. reflexivity. Qed.

(** C5, as the claim has it, fails: the sixth PIN check of user 1, half a
    second after five checks at time 0, is denied and reports 299 seconds,
    while [window - (now - oldest)] is 299.5. *)
Lemma denied_wait_is_truncated :
  let s := checks Pin 1 [0%Q; 0%Q; 0%Q; 0%Q; 0%Q] defaults in
  ∃ s',
    check Pin 1 (1 # 2)%Q s = Py.Returned (Denied 299) s' ∧
    Py.min (recent (window_of Pin s) (1 # 2)%Q (history Pin 1 s)) = Some 0%Q ∧
    ¬ (inject_Z 299 == inject_Z (window_of Pin s) - ((1 # 2) - 0))%Q.
Proof.
  eexists. split; [vm_compute; reflexivity|]. split; [reflexivity|].
  vm_compute. intros [=].
Qed.

Lemma check_sliding_window_witness :
  (∃ oldest s',
     check Pin 1 (1 # 2)%Q (checks Pin 1 [0%Q; 0%Q; 0%Q; 0%Q; 0%Q] defaults) =
       Py.Returned (Denied (Py.int (inject_Z 300 - ((1 # 2) - oldest)))) s') ∧
  (∃ s',
     check Pin 1 300%Q (checks Pin 1 [0%Q; 0%Q; 0%Q; 0%Q; 0%Q] defaults) =
       Py.Returned (Allowed 4) s' ∧ history Pin 1 s' = [300%Q]) ∧
  history Pin 1 (state_of (check Pin 1 0%Q defaults)) = [0%Q] ∧
  (∃ oldest,
     Py.min [0%Q; 0%Q; 0%Q; 0%Q; 0%Q] = Some oldest ∧
     299 = Py.int (inject_Z 300 - ((1 # 2) - oldest))).
Proof.
  destruct (check_sliding_window Pin 1) as (Burst & Elapsed & Granted & Refused).
  split; [|split; [|split]].
  - destruct (Burst defaults [0%Q; 0%Q; 0%Q; 0%Q; 0%Q] (1 # 2)%Q)
      as (oldest & s' & H & _).
    + vm_compute. intros [=].
    + reflexivity.
    + intros x y Hx Hy.
      change (history Pin 1 defaults) with (@nil Q) in Hx. simpl in Hx, Hy.
      each_member Hx; each_member Hy; reflexivity.
    + by exists oldest, s'.
  - apply (Elapsed (checks Pin 1 [0%Q; 0%Q; 0%Q; 0%Q; 0%Q] defaults) 300%Q).
    + vm_compute. intros [=].
    + intros x Hx. rewrite five_pin_attempts in Hx.
      each_member Hx; vm_compute; intros [=].
  - destruct (Granted defaults 0%Q 4 (state_of (check Pin 1 0%Q defaults)) eq_refl)
      as [Hh _].
    rewrite Hh. reflexivity.
  - destruct (Refused (checks Pin 1 [0%Q; 0%Q; 0%Q; 0%Q; 0%Q] defaults) (1 # 2)%Q 299
                (state_of (check Pin 1 (1 # 2)%Q
                   (checks Pin 1 [0%Q; 0%Q; 0%Q; 0%Q; 0%Q] defaults))))
      as (oldest & Hmin & _ & Hr); [reflexivity|].
    by exists oldest.
Defined.

(** C10: a denied call stores the surviving readings and nothing else: the
    list of the user afterwards is the pruned list, the current time is not
    appended.  So for a list no longer than the maximum (as the checks keep
    it), a further denied call at a later time leaves the list as it is and
    reports a wait that is not longer. *)
Theorem denied_check_appends_nothing c u t s r s' :
  check c u t s = Py.Returned (Denied r) s' →
  history c u s' = recent (window_of c s) t (history c u s) ∧
  (∀ t' r' s'',
     Z.of_nat (length (history c u s)) ≤ maximum_of c s →
     (t <= t')%Q →
     check c u t' s' = Py.Returned (Denied r') s'' →
     history c u s'' = history c u s' ∧ r' ≤ r).
Proof.
  intros H.
  apply check_returned in H as (d' & H & ->).
  apply check_window_returned in H as [(_ & [=] & _)|(Hfull & m & Hm & [= ->] & ->)].
  fold (history c u s) in Hfull, Hm.
  assert (E1 : history c u (set_attempts c
                 (<[u := recent (window_of c s) t (history c u s)]> (attempts_of c s)) s)
               = recent (window_of c s) t (history c u s)).
  { rewrite history_set. by rewrite lookup_insert_eq. }
  split; [exact E1|].
  intros t' r' s'' Hlen Hlater H'.
  apply check_returned in H' as (d'' & H' & ->).
  rewrite window_of_set, maximum_of_set in H'.
  apply check_window_returned in H' as [(_ & [=] & _)|(Hfull' & m' & Hm' & [= ->] & ->)].
  rewrite attempts_of_set in Hfull', Hm'. rewrite lookup_insert_eq in Hfull', Hm'.
  simpl in Hfull', Hm'. fold (history c u s) in Hfull', Hm' |- *.
  pose proof (recent_length (window_of c s) t (history c u s)) as L1.
  pose proof (recent_length (window_of c s) t'
                (recent (window_of c s) t (history c u s))) as L2.
  assert (K : recent (window_of c s) t' (recent (window_of c s) t (history c u s))
              = recent (window_of c s) t (history c u s))
    by (apply recent_full; lia).
  rewrite K in Hm'. rewrite Hm in Hm'. injection Hm' as <-.
  split.
  - rewrite history_set, attempts_of_set, !lookup_insert_eq. simpl.
    rewrite K. by rewrite E1.
  - apply int_le. lra.
Qed.

Lemma denied_check_appends_nothing_witness :
  let s := checks Pin 1 [0%Q; 0%Q; 0%Q; 0%Q; 0%Q] defaults in
  let s' := state_of (check Pin 1 (1 # 2)%Q s) in
  let s'' := state_of (check Pin 1 1%Q s') in
  check Pin 1 (1 # 2)%Q s = Py.Returned (Denied 299) s' ∧
  check Pin 1 1%Q s' = Py.Returned (Denied 299) s'' ∧
  history Pin 1 s' = [0%Q; 0%Q; 0%Q; 0%Q; 0%Q] ∧
  history Pin 1 s'' = history Pin 1 s' ∧ 299 ≤ 299.
Proof.
  intros s s' s''.
  assert (H1 : check Pin 1 (1 # 2)%Q s = Py.Returned (Denied 299) s') by reflexivity.
  assert (H2 : check Pin 1 1%Q s' = Py.Returned (Denied 299) s'') by reflexivity.
  destruct (denied_check_appends_nothing Pin 1 (1 # 2)%Q s 299 s' H1) as [Hh Hnext].
  destruct (Hnext 1%Q 299 s'') as [Hsame Hle].
  - vm_compute. intros [=].
  - vm_compute. intros [=].
  - exact H2.
  - split; [exact H1|]. split; [exact H2|]. split; [reflexivity|].
    split; [exact Hsame | exact Hle].
Defined.

End RateLimiterFacts.

(** ** More on the access registry *)

Section AuthMore.

Import Auth.

Implicit Types (m : AuthManager) (uid p q : Z) (uname now : string) (o : op).

Lemma requests_of_absent uid (l : list request_entry) :
  uid ∉ req_user_id <$> l → requests_of uid l = 0%nat.
Proof.
  unfold requests_of. induction l as [|r l IH]; [done|].
  rewrite fmap_cons, not_elem_of_cons. intros [Hne Hl].
  rewrite filter_cons. destruct (decide (req_user_id r = uid)); [congruence | auto].
Qed.

(** [add_user_request] is idempotent: once it has run for a user a second
    call, whatever name and time it carries, changes nothing; and a user
    who had no request has exactly one afterwards. *)
Theorem add_user_request_idempotent uid uname now uname' now' m :
  let m1 := add_user_request uid uname now m in
  add_user_request uid uname' now' m1 = m1 ∧
  uid ∈ pending_ids m1 ∧
  requests_of uid (pending_requests (allowed_users m1)) =
    if decide (uid ∈ pending_ids m) then requests_of uid (pending_requests (allowed_users m))
    else 1%nat.
Proof.
  simpl.
  assert (In1 : uid ∈ pending_ids (add_user_request uid uname now m)).
  { unfold add_user_request.
    destruct (existsb _ _) eqn:E.
    - by apply existsb_pending in E.
    - unfold pending_ids. simpl. rewrite fmap_app, elem_of_app. right.
      apply list_elem_of_here. }
  split; [|split; [exact In1|]].
  - unfold add_user_request at 1.
    apply existsb_pending in In1. unfold pending_ids in In1. by rewrite In1.
  - unfold add_user_request.
    destruct (existsb _ _) eqn:E.
    + apply existsb_pending in E. by rewrite decide_True.
    + assert (N : uid ∉ pending_ids m).
      { intros H. apply existsb_pending in H. congruence. }
      rewrite decide_False by done. simpl.
      unfold requests_of. rewrite filter_app, length_app.
      fold (requests_of uid (pending_requests (allowed_users m))).
      rewrite requests_of_absent by done.
      rewrite filter_cons. simpl. by rewrite decide_True.
Qed.

Lemma filter_other_requests uid q (l : list request_entry) :
  q ≠ uid →
  filter (λ x, req_user_id x = q) (filter (λ r, req_user_id r ≠ uid) l) =
  filter (λ x, req_user_id x = q) l.
Proof.
  intros Hq. induction l as [|x l IH]; [done|].
  rewrite (filter_cons (λ r, req_user_id r ≠ uid)).
  destruct (decide (req_user_id x ≠ uid)) as [Hx|Hx].
  - rewrite !filter_cons. destruct (decide (req_user_id x = q)); by rewrite IH.
  - rewrite IH, filter_cons. rewrite decide_False; [done|].
    intros E. apply Hx. congruence.
Qed.

Lemma filter_nobody uid (l : list request_entry) :
  uid ∉ req_user_id <$> l → filter (λ r, req_user_id r ≠ uid) l = l.
Proof.
  induction l as [|x l IH]; [done|].
  rewrite fmap_cons, not_elem_of_cons. intros [? ?].
  rewrite filter_cons, decide_True by done. f_equal. by apply IH.
Qed.

(** [deny_user] returns [True] exactly when the user had a pending request;
    afterwards the user has none, everybody else's requests are the ones
    they were, and the approved users are untouched. *)
Theorem deny_user_spec uid uname m :
  let '(r, m') := deny_user uid uname m in
  r = bool_decide (uid ∈ pending_ids m) ∧
  (uid ∉ pending_ids m') ∧
  (∀ q, q ≠ uid →
     filter (λ x, req_user_id x = q) (pending_requests (allowed_users m')) =
     filter (λ x, req_user_id x = q) (pending_requests (allowed_users m))) ∧
  users (allowed_users m') = users (allowed_users m).
Proof.
  unfold deny_user.
  set (kept := filter (λ r, req_user_id r ≠ uid) (pending_requests (allowed_users m))).
  assert (K : ∀ q, q ≠ uid →
     filter (λ x, req_user_id x = q) kept =
     filter (λ x, req_user_id x = q) (pending_requests (allowed_users m)))
    by (intros q Hq; by apply filter_other_requests).
  assert (N : uid ∉ req_user_id <$> kept).
  { unfold kept. rewrite filter_requests_ids. by intros [? _]. }
  destruct (_ <? _)%nat eqn:E; simpl.
  - apply Nat.ltb_lt in E. simpl in E. fold kept in E.
    repeat split; try done.
    symmetry. apply bool_decide_eq_true. 
    destruct (decide (uid ∈ pending_ids m)) as [|No]; [done|].
    exfalso. unfold kept in E. rewrite filter_nobody in E by done. lia.
  - apply Nat.ltb_ge in E. simpl in E. fold kept in E.
    repeat split; try done.
    symmetry. apply bool_decide_eq_false. intros Hin.
    unfold pending_ids in Hin. apply list_elem_of_fmap in Hin as (x & -> & Hx).
    pose proof (length_filter_lt (λ r, req_user_id r ≠ req_user_id x) _ x Hx) as L.
    fold kept in L. assert (¬ req_user_id x ≠ req_user_id x) by tauto.
    specialize (L H). lia.
Qed.

Lemma bool_eq_iff (a b : bool) : (a = true ↔ b = true) → a = b.
Proof. destruct a, b; intuition congruence. Qed.

Lemma filter_nobody_users uid (l : list user_entry) :
  uid ∉ user_id <$> l → filter (λ u, user_id u ≠ uid) l = l.
Proof.
  induction l as [|x l IH]; [done|].
  rewrite fmap_cons, not_elem_of_cons. intros [? ?].
  rewrite filter_cons, decide_True by done. f_equal. by apply IH.
Qed.

(** [revoke_user_access] returns [True] exactly when the user was allowed;
    afterwards the user is not allowed, everybody else is allowed or not as
    before, and the pending requests are untouched. *)
Theorem revoke_user_access_spec uid m :
  let '(r, m') := revoke_user_access uid m in
  r = is_user_allowed uid m ∧
  is_user_allowed uid m' = false ∧
  (∀ q, q ≠ uid → is_user_allowed q m' = is_user_allowed q m) ∧
  pending_requests (allowed_users m') = pending_requests (allowed_users m).
Proof.
  unfold revoke_user_access.
  set (kept := filter (λ u, user_id u ≠ uid) (users (allowed_users m))).
  assert (G : ∀ f, is_user_allowed uid (Manager (Registry kept (pending_requests (allowed_users m))) f) = false).
  { intros f. apply is_user_allowed_false. unfold approved_ids. simpl.
    unfold kept. rewrite filter_users_ids. by intros [? _]. }
  assert (O : ∀ f q, q ≠ uid →
     is_user_allowed q (Manager (Registry kept (pending_requests (allowed_users m))) f)
     = is_user_allowed q m).
  { intros f q Hq. apply bool_eq_iff. rewrite !is_user_allowed_iff.
    unfold approved_ids. simpl. unfold kept. rewrite filter_users_ids. tauto. }
  destruct (_ <? _)%nat eqn:E; simpl.
  - apply Nat.ltb_lt in E. simpl in E. fold kept in E.
    split; [|split; [apply G|split; [intros q Hq; by apply O|done]]].
    symmetry. apply is_user_allowed_iff.
    destruct (decide (uid ∈ approved_ids m)) as [|No]; [done|].
    exfalso. unfold kept in E. rewrite filter_nobody_users in E by done. lia.
  - apply Nat.ltb_ge in E. simpl in E. fold kept in E.
    split; [|split; [apply G|split; [intros q Hq; by apply O|done]]].
    symmetry. apply is_user_allowed_false. intros Hin.
    unfold approved_ids in Hin. apply list_elem_of_fmap in Hin as (x & -> & Hx).
    pose proof (length_filter_lt (λ u, user_id u ≠ user_id x) _ x Hx) as L.
    fold kept in L. assert (H : ¬ user_id x ≠ user_id x) by tauto.
    specialize (L H). lia.
Qed.

(** After [approve_user] the user is allowed, whatever the call returned,
    and nobody else's standing changed; a [revoke_user_access] that follows
    returns [True] and takes the access away again. *)
Theorem approve_then_revoke uid uname now m :
  let m1 := (approve_user uid uname now m).2 in
  is_user_allowed uid m1 = true ∧
  (∀ q, q ≠ uid → is_user_allowed q m1 = is_user_allowed q m) ∧
  (revoke_user_access uid m1).1 = true ∧
  is_user_allowed uid (revoke_user_access uid m1).2 = false.
Proof.
  simpl.
  assert (A : is_user_allowed uid (approve_user uid uname now m).2 = true).
  { unfold approve_user.
    replace (is_user_allowed uid (Manager _ _)) with (is_user_allowed uid m) by reflexivity.
    destruct (is_user_allowed uid m) eqn:E; simpl.
    - exact E.
    - apply is_user_allowed_iff. unfold approved_ids. simpl.
      rewrite fmap_app, elem_of_app. right. apply list_elem_of_here. }
  split; [exact A|]. split.
  - intros q Hq. unfold approve_user.
    replace (is_user_allowed uid (Manager _ _)) with (is_user_allowed uid m) by reflexivity.
    destruct (is_user_allowed uid m); simpl; [reflexivity|].
    apply bool_eq_iff. rewrite !is_user_allowed_iff. unfold approved_ids. simpl.
    rewrite fmap_app, elem_of_app. simpl. rewrite list_elem_of_singleton. tauto.
  - set (m1 := (approve_user uid uname now m).2) in *.
    apply is_user_allowed_iff in A.
    unfold revoke_user_access.
    set (kept := filter (λ u, user_id u ≠ uid) (users (allowed_users m1))).
    assert (L : (length kept < length (users (allowed_users m1)))%nat).
    { unfold approved_ids in A. apply list_elem_of_fmap in A as (x & -> & Hx).
      apply (length_filter_lt _ _ x Hx). tauto. }
    apply Nat.ltb_lt in L. simpl. rewrite L. simpl. split; [done|].
    apply is_user_allowed_false. unfold approved_ids. simpl.
    unfold kept. rewrite filter_users_ids. by intros [? _].
Qed.

(** *** Invariants over sequences of calls *)

Lemma step_unique m o :
  NoDup (pending_ids m) → NoDup (approved_ids m) →
  NoDup (pending_ids (step m o)) ∧ NoDup (approved_ids (step m o)).
Proof.
  intros NP NA.
  assert (FP : ∀ uid, NoDup (req_user_id <$>
              filter (λ r, req_user_id r ≠ uid) (pending_requests (allowed_users m)))).
  { intros uid. eapply sublist_NoDup; [exact NP|].
    apply fmap_sublist, sublist_filter. }
  assert (FA : ∀ uid, NoDup (user_id <$>
              filter (λ u, user_id u ≠ uid) (users (allowed_users m)))).
  { intros uid. eapply sublist_NoDup; [exact NA|].
    apply fmap_sublist, sublist_filter. }
  destruct o as [uid uname now|uid uname now|uid uname|uid]; simpl.
  - unfold add_user_request. destruct (existsb _ _) eqn:E; [done|].
    split; [|done]. unfold pending_ids. simpl. rewrite fmap_app. simpl.
    apply NoDup_app. repeat split; [done | | apply NoDup_singleton].
    intros x Hx Hx'. apply list_elem_of_singleton in Hx' as ->.
    apply existsb_pending in Hx. congruence.
  - unfold approve_user.
    replace (is_user_allowed uid (Manager _ _)) with (is_user_allowed uid m) by reflexivity.
    destruct (is_user_allowed uid m) eqn:E; simpl; (split; [apply FP|]); [done|].
    apply is_user_allowed_false in E. unfold approved_ids. simpl.
    rewrite fmap_app. simpl.
    apply NoDup_app. repeat split; [done | | apply NoDup_singleton].
    intros x Hx Hx'. apply list_elem_of_singleton in Hx' as ->. done.
  - unfold deny_user. destruct (_ <? _)%nat; simpl; (split; [apply FP | done]).
  - unfold revoke_user_access. destruct (_ <? _)%nat; simpl; (split; [done | apply FA]).
Qed.

(** Whatever calls are made, in whatever order, a registry in which no id
    occurs twice among the pending requests or twice among the approved
    users stays so: at most one request and one approval per user. *)
Theorem run_keeps_ids_unique m (os : list op) :
  NoDup (pending_ids m) → NoDup (approved_ids m) →
  NoDup (pending_ids (run m os)) ∧ NoDup (approved_ids (run m os)).
Proof.
  unfold run. revert m. induction os as [|o os IH]; intros m NP NA; [done|].
  simpl. destruct (step_unique m o NP NA). by apply IH.
Qed.

Lemma run_keeps_ids_unique_witness :
  let os := [RequestAccess 1 "alice" "t0"; RequestAccess 1 "al" "t1";
             Approve 1 "alice" "t2"; Approve 1 "alice" "t3";
             RequestAccess 1 "alice" "t4"; RequestAccess 2 "bob" "t5"] in
  NoDup (pending_ids fresh) ∧ NoDup (approved_ids fresh) ∧
  NoDup (pending_ids (run fresh os)) ∧ NoDup (approved_ids (run fresh os)).
Proof.
  intros os.
  assert (NP : NoDup (pending_ids fresh)) by apply NoDup_nil_2.
  assert (NA : NoDup (approved_ids fresh)) by apply NoDup_nil_2.
  split; [exact NP|]. split; [exact NA|].
  exact (run_keeps_ids_unique fresh os NP NA).
Defined.

(** As long as nobody who is approved asks for access, no sequence of calls
    puts a user in both lists. *)
Theorem admissible_run_exclusive m (os : list op) :
  exclusive m → admissible m os → exclusive (run m os).
Proof.
  unfold run. revert m. induction os as [|o os IH]; intros m Hex Had; [done|].
  simpl. destruct Had as [Ho Had]. apply IH; [|done].
  destruct o as [uid uname now|uid uname now|uid uname|uid]; simpl.
  - by apply add_user_request_exclusive.
  - by apply approve_user_exclusive.
  - by apply deny_user_exclusive.
  - by apply revoke_user_access_exclusive.
Qed.

Lemma admissible_run_exclusive_witness :
  let os := [RequestAccess 1 "alice" "t0"; Approve 1 "alice" "t1";
             Revoke 1; RequestAccess 1 "alice" "t2"; Deny 1 "alice"] in
  exclusive fresh ∧ admissible fresh os ∧ exclusive (run fresh os).
Proof.
  intros os.
  assert (E : exclusive fresh).
  { intros p [Hp _]. by apply elem_of_nil in Hp. }
  assert (A : admissible fresh os) by (vm_compute; tauto).
  split; [exact E|]. split; [exact A|].
  exact (admissible_run_exclusive fresh os E A).
Defined.

Lemma step_keeps_writable m o :
  Py.writable (allowed_users_file (step m o)) = Py.writable (allowed_users_file m).
Proof.
  destruct o as [uid uname now|uid uname now|uid uname|uid]; simpl.
  - unfold add_user_request. destruct (existsb _ _); [done|]. apply dump_keeps_writable.
  - unfold approve_user. destruct (negb _); [apply dump_keeps_writable | done].
  - unfold deny_user. destruct (_ <? _)%nat; [apply dump_keeps_writable | done].
  - unfold revoke_user_access. destruct (_ <? _)%nat; [apply dump_keeps_writable | done].
Qed.

(** With a file that accepts writes and holds the registry, every call
    other than the approval of an approved user with a pending request
    leaves the file holding the registry, so that a restart loads exactly
    what was in memory. *)
Theorem step_keeps_file_in_sync m o :
  Py.writable (allowed_users_file m) = true →
  in_sync m → saves_its_change m o →
  in_sync (step m o) ∧
  allowed_users (init (allowed_users_file (step m o))) = allowed_users (step m o).
Proof.
  intros W S C.
  assert (I : in_sync (step m o)).
  { destruct o as [uid uname now|uid uname now|uid uname|uid]; simpl.
    - by apply add_user_request_in_sync.
    - simpl in C. destruct (is_user_allowed uid m) eqn:E.
      + destruct C as [C|C]; [congruence|].
        unfold approve_user.
        replace (is_user_allowed uid (Manager _ _)) with (is_user_allowed uid m)
          by reflexivity.
        rewrite E. simpl. unfold in_sync. simpl.
        unfold pending_ids in C. rewrite filter_nobody by done.
        destruct m as [[us ps] f]. exact S.
      + by apply approve_user_new_in_sync.
    - by apply deny_user_in_sync.
    - by apply revoke_user_access_in_sync. }
  split; [exact I|].
  unfold init, _load_allowed_users. simpl. unfold in_sync in I. by rewrite I.
Qed.

Lemma step_keeps_file_in_sync_witness :
  let m := run fresh [RequestAccess 1 "alice" "t0"] in
  Py.writable (allowed_users_file m) = true ∧ in_sync m ∧
  saves_its_change m (Approve 1 "alice" "t1") ∧
  in_sync (step m (Approve 1 "alice" "t1")).
Proof.
  intros m.
  assert (W : Py.writable (allowed_users_file m) = true) by reflexivity.
  assert (S : in_sync m) by reflexivity.
  assert (C : saves_its_change m (Approve 1 "alice" "t1")) by (left; reflexivity).
  split; [exact W|]. split; [exact S|]. split; [exact C|].
  exact (proj1 (step_keeps_file_in_sync m (Approve 1 "alice" "t1") W S C)).
Defined.

End AuthMore.

(** ** More on the second factor *)

Section Email2FAMore.

Import Email2FA.

Implicit Types (s : Email2FA) (user_id : Z) (now : Py.datetime) (info : code_info).

Lemma lookup_foldr_delete {A : Type} (m : gmap string A) (ks : list string) k :
  foldr delete m ks !! k = if decide (k ∈ ks) then None else m !! k.
Proof.
  induction ks as [|k' ks IH].
  - destruct (decide (k ∈ [])) as [H|]; [by apply elem_of_nil in H | done].
  - change (foldr delete m (k' :: ks)) with (delete k' (foldr delete m ks)).
    destruct (decide (k' = k)) as [->|Hne].
    + rewrite lookup_delete_eq.
      destruct (decide (k ∈ k :: ks)) as [|N]; [done|].
      exfalso. apply N, list_elem_of_here.
    + rewrite lookup_delete_ne, IH by done.
      destruct (decide (k ∈ ks)) as [Hin|Hin], (decide (k ∈ k' :: ks)) as [Hin'|Hin'];
        try done.
      * exfalso. by apply Hin', list_elem_of_further.
      * exfalso. apply elem_of_cons in Hin' as [->|?]; done.
Qed.

Lemma expired_users_elem now s k :
  k ∈ (List.filter (λ item : string * code_info, _is_code_expired now (expires_at item.2))
         (map_to_list (codes s))).*1
  ↔ ∃ info, codes s !! k = Some info ∧ _is_code_expired now (expires_at info) = true.
Proof.
  rewrite list_elem_of_fmap. split.
  - intros ([k' info] & -> & H). apply list_elem_of_In, filter_In in H as [H E].
    apply list_elem_of_In, elem_of_map_to_list in H. by exists info.
  - intros (info & L & E). exists (k, info). split; [done|].
    apply list_elem_of_In, filter_In. split; [|done].
    by apply list_elem_of_In, elem_of_map_to_list.
Qed.

(** What [_cleanup_expired_codes] leaves in memory. *)
Lemma cleanup_lookup now s k :
  codes (_cleanup_expired_codes now s) !! k =
    match codes s !! k with
    | Some info => if _is_code_expired now (expires_at info) then None else Some info
    | None => None
    end.
Proof.
  assert (C : codes (_cleanup_expired_codes now s) =
    foldr delete (codes s)
      (List.filter (λ item : string * code_info, _is_code_expired now (expires_at item.2))
         (map_to_list (codes s))).*1).
  { unfold _cleanup_expired_codes. by destruct ((List.filter _ _).*1). }
  rewrite C, lookup_foldr_delete.
  destruct (decide _) as [H|H].
  - apply expired_users_elem in H as (info & -> & ->). done.
  - destruct (codes s !! k) as [info|] eqn:L; [|done].
    destruct (_is_code_expired now (expires_at info)) eqn:E; [|done].
    exfalso. apply H, expired_users_elem. by exists info.
Qed.

Lemma cleanup_in_sync now s :
  Py.writable (codes_file s) = true → in_sync s →
  in_sync (_cleanup_expired_codes now s).
Proof.
  intros W S. unfold _cleanup_expired_codes.
  destruct ((List.filter _ _).*1) as [|k ks] eqn:E; simpl.
  - exact S.
  - unfold in_sync. simpl. by apply dump_content.
Qed.

(** [_cleanup_expired_codes] removes exactly the expired challenges: what
    is left in memory is every challenge that is not expired at that time,
    as it was; doing it again at the same time changes nothing more; and a
    writable file that held the challenges holds them afterwards. *)
Theorem cleanup_expired_codes_spec now s :
  let s' := _cleanup_expired_codes now s in
  (∀ k info, codes s' !! k = Some info ↔
     codes s !! k = Some info ∧ _is_code_expired now (expires_at info) = false) ∧
  codes (_cleanup_expired_codes now s') = codes s' ∧
  (Py.writable (codes_file s) = true → in_sync s → in_sync s').
Proof.
  simpl. split; [|split].
  - intros k info. rewrite cleanup_lookup.
    destruct (codes s !! k) as [i|]; [|split; [done | by intros [? _]]].
    destruct (_is_code_expired now (expires_at i)) eqn:E.
    + split; [done | intros [[= ->] X]; congruence].
    + split; [by intros [= ->] | by intros [[= ->] _]].
  - apply map_eq. intros k. rewrite !cleanup_lookup.
    destruct (codes s !! k) as [i|]; [|done].
    destruct (_is_code_expired now (expires_at i)) eqn:E; [done|]. by rewrite E.
  - apply cleanup_in_sync.
Qed.

Lemma cleanup_expired_codes_spec_witness :
  let s := (send_verification_code 5 "bob" "123456" 0 true (init (Py.File None true))).2 in
  Py.writable (codes_file s) = true ∧ in_sync s ∧
  in_sync (_cleanup_expired_codes 3600000001 s) ∧
  codes (_cleanup_expired_codes 3600000001 s) !! Py.str 5 = None.
Proof.
  intros s.
  assert (W : Py.writable (codes_file s) = true) by reflexivity.
  assert (S : in_sync s) by reflexivity.
  destruct (cleanup_expired_codes_spec 3600000001 s) as (L & _ & I).
  split; [exact W|]. split; [exact S|]. split; [exact (I W S)|].
  destruct (codes (_cleanup_expired_codes 3600000001 s) !! Py.str 5) as [info|] eqn:E;
    [|reflexivity].
  apply L in E as [E X]. vm_compute in E. injection E as <-. discriminate X.
Defined.

(** *** Lifetime and attempts *)

Lemma issued_not_expired (uname new_code : string) t0 t :
  t ≤ t0 + 3599000000 →
  _is_code_expired t (expires_at (issued uname new_code t0)) = false.
Proof.
  intros H. unfold _is_code_expired, issued. simpl.
  rewrite Z.gtb_ltb. apply Z.ltb_ge.
  unfold Py.timedelta_minutes, Py.timedelta_seconds, code_expiry_minutes,
    Py.microseconds_per_second.
  Z.div_mod_to_equations. lia.
Qed.

Lemma issued_expired (uname new_code : string) t0 t :
  t0 + 3600000000 < t →
  _is_code_expired t (expires_at (issued uname new_code t0)) = true.
Proof.
  intros H. unfold _is_code_expired, issued. simpl.
  rewrite Z.gtb_ltb. apply Z.ltb_lt.
  unfold Py.timedelta_minutes, Py.timedelta_seconds, code_expiry_minutes,
    Py.microseconds_per_second.
  Z.div_mod_to_equations. lia.
Qed.

Lemma send_stores user_id uname new_code t0 s :
  codes (send_verification_code user_id uname new_code t0 true s).2 !! Py.str user_id
  = Some (issued uname new_code t0).
Proof. unfold send_verification_code. simpl. apply lookup_insert_eq. Qed.

(** A code sent at [t0] is accepted up to 59 minutes and 59 seconds later
    and refused as expired once more than 60 minutes have passed: the
    stored expiry is [t0] plus one hour cut to the whole second. *)
Theorem code_lifetime user_id uname new_code t0 t1 s :
  let s0 := (send_verification_code user_id uname new_code t0 true s).2 in
  (t1 ≤ t0 + 3599000000 →
     (verify_code user_id new_code t1 s0).1 = Verdict true CodeConfirmed false) ∧
  (t0 + 3600000000 < t1 →
     (verify_code user_id new_code t1 s0).1 = Verdict false CodeExpired false ∧
     ¬ in_memory user_id (verify_code user_id new_code t1 s0).2).
Proof.
  intros s0. pose proof (send_stores user_id uname new_code t0 s) as L.
  fold s0 in L. split; intros H.
  - unfold verify_code. rewrite L, (issued_not_expired _ _ _ _ H). simpl.
    by rewrite String.eqb_refl.
  - unfold verify_code, in_memory. rewrite L, (issued_expired _ _ _ _ H). simpl.
    rewrite lookup_delete_eq. split; [done | by intros [? ?]].
Qed.

Lemma code_lifetime_witness :
  let s0 := (send_verification_code 5 "bob" "123456" 0 true (init (Py.File None true))).2 in
  (verify_code 5 "123456" 3599000000 s0).1 = Verdict true CodeConfirmed false ∧
  (verify_code 5 "123456" 3600000001 s0).1 = Verdict false CodeExpired false.
Proof.
  split.
  - apply (code_lifetime 5 "bob" "123456" 0 3599000000 (init (Py.File None true))).
    vm_compute. intros [=].
  - apply (code_lifetime 5 "bob" "123456" 0 3600000001 (init (Py.File None true))).
    reflexivity.
Defined.

(** A wrong code against a live challenge that still has more than one
    attempt left. *)
Lemma verify_code_wrong_retry user_id (input_code : string) now s info :
  codes s !! Py.str user_id = Some info →
  _is_code_expired now (expires_at info) = false →
  attempts info + 1 < max_attempts info →
  input_code ≠ code info →
  verify_code user_id input_code now s =
    (Verdict false (WrongCode (max_attempts info - (attempts info + 1))) true,
     _save_codes
       (Manager
          (<[Py.str user_id :=
               CodeInfo (code info) (expires_at info) (attempts info + 1)
                        (max_attempts info) (username info)]> (codes s))
          (codes_file s))).
Proof.
  intros L E A C. unfold verify_code. rewrite L, E.
  destruct (Z.geb_spec (attempts info) (max_attempts info)); [lia|].
  destruct (String.eqb_spec input_code (code info)); [done|]. simpl.
  destruct (Z.gtb_spec (max_attempts info - (attempts info + 1)) 0); [done | lia].
Qed.

(** A wrong code that uses up the last attempt. *)
Lemma verify_code_wrong_last user_id (input_code : string) now s info :
  codes s !! Py.str user_id = Some info →
  _is_code_expired now (expires_at info) = false →
  attempts info < max_attempts info →
  max_attempts info ≤ attempts info + 1 →
  input_code ≠ code info →
  (verify_code user_id input_code now s).1 = Verdict false AttemptsExceeded false ∧
  codes (verify_code user_id input_code now s).2 = delete (Py.str user_id) (codes s).
Proof.
  intros L E A M C. unfold verify_code. rewrite L, E.
  destruct (Z.geb_spec (attempts info) (max_attempts info)); [lia|].
  destruct (String.eqb_spec input_code (code info)); [done|]. simpl.
  destruct (Z.gtb_spec (max_attempts info - (attempts info + 1)) 0); [lia|].
  simpl. by rewrite delete_insert_eq.
Qed.

(** After a code has been sent, three wrong codes in a row (none of them
    late) are answered with two attempts left, one attempt left, and a
    refusal without retry that discards the challenge; the right code,
    tried after that, finds nothing. *)
Theorem three_wrong_codes user_id uname new_code (c1 c2 c3 : string) t0 t1 t2 t3 t4 s :
  c1 ≠ new_code → c2 ≠ new_code → c3 ≠ new_code →
  t1 ≤ t0 + 3599000000 → t2 ≤ t0 + 3599000000 → t3 ≤ t0 + 3599000000 →
  let s0 := (send_verification_code user_id uname new_code t0 true s).2 in
  let '(v1, s1) := verify_code user_id c1 t1 s0 in
  let '(v2, s2) := verify_code user_id c2 t2 s1 in
  let '(v3, s3) := verify_code user_id c3 t3 s2 in
  let '(v4, s4) := verify_code user_id new_code t4 s3 in
  v1 = Verdict false (WrongCode 2) true ∧
  v2 = Verdict false (WrongCode 1) true ∧
  v3 = Verdict false AttemptsExceeded false ∧
  ¬ in_memory user_id s3 ∧
  v4 = Verdict false CodeNotFound false.
Proof.
  intros C1 C2 C3 T1 T2 T3 s0.
  pose proof (send_stores user_id uname new_code t0 s) as L0. fold s0 in L0.
  rewrite (verify_code_wrong_retry user_id c1 t1 s0 _ L0);
    [|by apply issued_not_expired|reflexivity|done].
  set (s1 := _save_codes _).
  assert (L1 : codes s1 !! Py.str user_id =
    Some (CodeInfo new_code (expires_at (issued uname new_code t0)) 1 3 uname))
    by apply lookup_insert_eq.
  rewrite (verify_code_wrong_retry user_id c2 t2 s1 _ L1);
    [|by apply issued_not_expired|reflexivity|done].
  set (s2 := _save_codes _).
  assert (L2 : codes s2 !! Py.str user_id =
    Some (CodeInfo new_code (expires_at (issued uname new_code t0)) 2 3 uname))
    by apply lookup_insert_eq.
  destruct (verify_code_wrong_last user_id c3 t3 s2 _ L2) as [V3 D3];
    [by apply issued_not_expired|reflexivity|simpl; lia|done|].
  destruct (verify_code user_id c3 t3 s2) as [v3 s3]. simpl in V3, D3.
  assert (N : codes s3 !! Py.str user_id = None)
    by (rewrite D3; apply lookup_delete_eq).
  unfold verify_code, in_memory. rewrite N.
  repeat split; done.
Qed.

Lemma three_wrong_codes_witness :
  let s0 := (send_verification_code 5 "bob" "123456" 0 true (init (Py.File None true))).2 in
  (verify_code 5 "123456" 40
     (verify_code 5 "000002" 30
        (verify_code 5 "000001" 20 (verify_code 5 "000000" 10 s0).2).2).2).1
  = Verdict false CodeNotFound false.
Proof.
  intros s0.
  assert (T : ∀ t, t ≤ 30 → t ≤ 0 + 3599000000) by (intros t; lia).
  pose proof (three_wrong_codes 5 "bob" "123456" "000000" "000001" "000002"
                0 10 20 30 40 (init (Py.File None true))
                ltac:(discriminate) ltac:(discriminate) ltac:(discriminate)
                (T 10 ltac:(lia)) (T 20 ltac:(lia)) (T 30 ltac:(lia))) as H.
  cbv zeta in H. fold s0 in H.
  destruct (verify_code 5 "000000" 10 s0) as [v1 s1]. cbn [fst snd].
  destruct (verify_code 5 "000001" 20 s1) as [v2 s2]. cbn [fst snd].
  destruct (verify_code 5 "000002" 30 s2) as [v3 s3]. cbn [fst snd].
  destruct (verify_code 5 "123456" 40 s3) as [v4 s4]. cbn [fst snd].
  apply H.
Defined.

(** *** Sending again *)

Lemma send_codes user_id uname new_code t0 (delivered : bool) s k :
  k ≠ Py.str user_id →
  codes (send_verification_code user_id uname new_code t0 delivered s).2 !! k
  = codes (_cleanup_expired_codes t0 s) !! k.
Proof.
  intros Hk. unfold send_verification_code. simpl. rewrite lookup_insert_eq.
  destruct delivered; simpl.
  - by rewrite lookup_insert_ne.
  - by rewrite lookup_delete_ne, lookup_insert_ne.
Qed.

(** [resend_code] leaves in memory exactly what [send_verification_code]
    would have left: the new challenge with no attempt used, whatever was
    on file for the user before.  So an earlier code, when it differs from
    the new one, is answered as a wrong code with two attempts left. *)
Theorem resend_code_replaces user_id uname new_code t0 s :
  let '(r, s') := resend_code user_id uname new_code t0 true s in
  r = Some new_code ∧
  codes s' !! Py.str user_id = Some (issued uname new_code t0) ∧
  codes s' = codes (send_verification_code user_id uname new_code t0 true s).2 ∧
  (∀ (old : string) t1, old ≠ new_code → t1 ≤ t0 + 3599000000 →
     (verify_code user_id old t1 s').1 = Verdict false (WrongCode 2) true).
Proof.
  unfold resend_code.
  set (s1 := match codes s !! Py.str user_id with
             | Some _ => _save_codes (Manager (delete (Py.str user_id) (codes s)) (codes_file s))
             | None => s
             end).
  pose proof (send_stores user_id uname new_code t0 s1) as L.
  assert (R : (send_verification_code user_id uname new_code t0 true s1).1 = Some new_code)
    by reflexivity.
  pose proof (λ k, send_codes user_id uname new_code t0 true s1 k) as E1.
  destruct (send_verification_code user_id uname new_code t0 true s1) as [r s'].
  simpl in L, R, E1. split; [exact R|]. split; [exact L|]. split.
  - apply map_eq. intros k.
    destruct (decide (k = Py.str user_id)) as [->|Hk].
    + by rewrite L, send_stores.
    + pose proof (send_codes user_id uname new_code t0 true s k Hk) as E2.
      rewrite (E1 k Hk), E2, !cleanup_lookup.
      assert (S1 : codes s1 !! k = codes s !! k).
      { unfold s1. destruct (codes s !! Py.str user_id); [|done].
        simpl. by rewrite lookup_delete_ne. }
      by rewrite S1.
  - intros old t1 Hold Ht.
    rewrite (verify_code_wrong_retry user_id old t1 s' _ L);
      [done | by apply issued_not_expired | reflexivity | done].
Qed.

Lemma resend_code_replaces_witness :
  let s := (send_verification_code 5 "bob" "123456" 0 true (init (Py.File None true))).2 in
  (verify_code 5 "123456" 2000000 (resend_code 5 "bob" "654321" 1000000 true s).2).1
  = Verdict false (WrongCode 2) true.
Proof.
  intros s.
  pose proof (resend_code_replaces 5 "bob" "654321" 1000000 s) as H.
  destruct (resend_code 5 "bob" "654321" 1000000 true s) as [r s'].
  destruct H as (_ & _ & _ & H). cbn [fst snd].
  apply H; [discriminate | vm_compute; intros [=]].
Defined.

(** *** The file behind the challenges *)

Lemma save_codes_in_sync s :
  Py.writable (codes_file s) = true → in_sync (_save_codes s).
Proof. intros W. unfold in_sync. simpl. by apply dump_content. Qed.

Lemma verify_code_in_sync user_id (input_code : string) now s :
  Py.writable (codes_file s) = true → in_sync s →
  in_sync (verify_code user_id input_code now s).2.
Proof.
  intros W S. unfold verify_code.
  destruct (codes s !! Py.str user_id) as [info|]; [|done].
  destruct (_is_code_expired now (expires_at info)); [by apply save_codes_in_sync|].
  destruct (attempts info >=? max_attempts info); [by apply save_codes_in_sync|].
  destruct (String.eqb input_code (code info)); [by apply save_codes_in_sync|].
  simpl. destruct (_ >? 0); simpl.
  - by apply save_codes_in_sync.
  - apply save_codes_in_sync. simpl. by rewrite dump_keeps_writable.
Qed.

Lemma send_verification_code_in_sync user_id uname new_code now (delivered : bool) s :
  Py.writable (codes_file s) = true →
  in_sync (send_verification_code user_id uname new_code now delivered s).2.
Proof.
  intros W. unfold send_verification_code. simpl. rewrite lookup_insert_eq.
  destruct delivered; simpl.
  - apply save_codes_in_sync. simpl. by rewrite cleanup_keeps_writable.
  - apply save_codes_in_sync. simpl.
    by rewrite dump_keeps_writable, cleanup_keeps_writable.
Qed.

(** With a file that accepts writes and holds the challenges, every method
    that changes the challenges leaves the file holding them: checking a
    code, sending one (delivered or not) and sending again. *)
Theorem challenges_file_in_sync user_id uname (input_code new_code : string) now
    (delivered : bool) s :
  Py.writable (codes_file s) = true → in_sync s →
  in_sync (verify_code user_id input_code now s).2 ∧
  in_sync (send_verification_code user_id uname new_code now delivered s).2 ∧
  in_sync (resend_code user_id uname new_code now delivered s).2.
Proof.
  intros W S. split; [by apply verify_code_in_sync|].
  split; [by apply send_verification_code_in_sync|].
  unfold resend_code. apply send_verification_code_in_sync.
  destruct (codes s !! Py.str user_id); [|done].
  simpl. by rewrite dump_keeps_writable.
Qed.

Lemma challenges_file_in_sync_witness :
  let s := (send_verification_code 5 "bob" "123456" 0 true (init (Py.File None true))).2 in
  Py.writable (codes_file s) = true ∧ in_sync s ∧
  in_sync (verify_code 5 "000000" 10 s).2.
Proof.
  intros s.
  assert (W : Py.writable (codes_file s) = true) by reflexivity.
  assert (S : in_sync s) by reflexivity.
  split; [exact W|]. split; [exact S|].
  exact (proj1 (challenges_file_in_sync 5 "bob" "000000" "111111" 10 true s W S)).
Defined.

(** *** Other users *)

(** Checking a code of one user leaves the challenges of every other user
    as they are; sending a code to one user leaves the other users'
    challenges as they are, except that the expired ones are dropped. *)
Theorem other_users_challenges user_id q uname (input_code new_code : string) now
    (delivered : bool) s :
  q ≠ user_id →
  codes (verify_code user_id input_code now s).2 !! Py.str q = codes s !! Py.str q ∧
  codes (send_verification_code user_id uname new_code now delivered s).2 !! Py.str q
  = match codes s !! Py.str q with
    | Some info => if _is_code_expired now (expires_at info) then None else Some info
    | None => None
    end.
Proof.
  intros Hq.
  assert (K : Py.str q ≠ Py.str user_id) by (intros E; by apply str_inj in E).
  split.
  - unfold verify_code.
    destruct (codes s !! Py.str user_id) as [info|]; [|done].
    destruct (_is_code_expired now (expires_at info));
      [simpl; by rewrite lookup_delete_ne|].
    destruct (attempts info >=? max_attempts info);
      [simpl; by rewrite lookup_delete_ne|].
    destruct (String.eqb input_code (code info));
      [simpl; by rewrite lookup_delete_ne|].
    simpl. destruct (_ >? 0); simpl.
    + by rewrite lookup_insert_ne.
    + by rewrite lookup_delete_ne, lookup_insert_ne.
  - rewrite send_codes by done. apply cleanup_lookup.
Qed.

Lemma other_users_challenges_witness :
  let s := (send_verification_code 5 "bob" "123456" 0 true (init (Py.File None true))).2 in
  5 ≠ 7 ∧
  codes (verify_code 7 "000000" 10 s).2 !! Py.str 5 = codes s !! Py.str 5.
Proof.
  intros s. assert (N : 5 ≠ 7) by discriminate. split; [exact N|].
  exact (proj1 (other_users_challenges 7 5 "eve" "000000" "111111" 10 true s N)).
Defined.

End Email2FAMore.

(** ** More on the tokens *)

Section CSRFMore.

Import CSRF.

Implicit Types (s : CSRFManager) (p q : Z) (a b tok fresh : string)
               (now t : Py.datetime).

(** *** One token per user, reused until it expires *)

Lemma add_csrf_reuses p b c tok e fresh now s :
  user_tokens s !! p = Some (String c tok) → token_expiry s !! p = Some e →
  now ≤ e →
  add_csrf_to_callback_data p b fresh now s =
    Py.Returned (b +:+ delimiter +:+ String c tok) s.
Proof.
  intros L E T. unfold add_csrf_to_callback_data, get_user_token.
  rewrite L, E. destruct (Z.gtb_spec now e); [lia | done].
Qed.

Lemma bound_token_nonempty p a fresh now s tok s1 :
  fresh ≠ "" →
  add_csrf_to_callback_data p a fresh now s =
    Py.Returned (a +:+ delimiter +:+ tok) s1 →
  tok ≠ "".
Proof.
  intros F. unfold add_csrf_to_callback_data, get_user_token, generate_token.
  assert (I : ∀ x y, a +:+ delimiter +:+ x = a +:+ delimiter +:+ y → x = y).
  { intros x y E. by do 2 apply (inj (String.app _)) in E. }
  destruct (user_tokens s !! p) as [stored|].
  - destruct (token_expiry s !! p) as [e|]; [|done].
    destruct (now >? e).
    + intros [= E _]. apply I in E. congruence.
    + destruct stored as [|c stored].
      * intros [= E _]. apply I in E. congruence.
      * intros [= E _]. apply I in E. by subst.
  - intros [= E _]. apply I in E. congruence.
Qed.

(** Binding does not rotate the token: a second
    [add_csrf_to_callback_data] of the same user, made before the token
    expires, embeds the same token, draws no new one and changes nothing. *)
Theorem bind_twice_same_token p a b fresh fresh' t1 t2 s :
  well_formed s → urlsafe fresh = true → fresh ≠ "" →
  ∃ tok e s1,
    add_csrf_to_callback_data p a fresh t1 s =
      Py.Returned (a +:+ delimiter +:+ tok) s1 ∧
    token_expiry s1 !! p = Some e ∧ t1 ≤ e ∧
    (t2 ≤ e →
       add_csrf_to_callback_data p b fresh' t2 s1 =
         Py.Returned (b +:+ delimiter +:+ tok) s1).
Proof.
  intros WF F N.
  destruct (add_csrf_to_callback_data_bound p a fresh t1 s WF F)
    as (tok & e & s1 & Hadd & L & E & T & _ & _).
  exists tok, e, s1. repeat split; try done.
  intros T2. pose proof (bound_token_nonempty p a fresh t1 s tok s1 N Hadd) as NE.
  destruct tok as [|c tok]; [done|].
  by apply add_csrf_reuses with (e := e).
Qed.

Lemma bind_twice_same_token_witness :
  well_formed init ∧ urlsafe "AbC-_9xyz01" = true ∧ "AbC-_9xyz01" ≠ "" ∧
  ∃ s1,
    add_csrf_to_callback_data 7 "approve_42" "AbC-_9xyz01" 0 init =
      Py.Returned "approve_42|csrf:AbC-_9xyz01" s1 ∧
    add_csrf_to_callback_data 7 "deny_42" "ZZZZZZZZZZZ" 3600000000 s1 =
      Py.Returned "deny_42|csrf:AbC-_9xyz01" s1.
Proof.
  assert (N : "AbC-_9xyz01" ≠ "") by discriminate.
  split; [exact init_well_formed|]. split; [reflexivity|]. split; [exact N|].
  destruct (bind_twice_same_token 7 "approve_42" "deny_42" "AbC-_9xyz01" "ZZZZZZZZZZZ"
              0 3600000000 init init_well_formed eq_refl N)
    as (tok & e & s1 & Hadd & E & _ & Again).
  vm_compute in Hadd. injection Hadd as Ht Hs. subst tok s1.
  vm_compute in E. injection E as <-.
  eexists. split; [reflexivity|].
  apply Again. vm_compute. intros [=].
Defined.

(** *** A new token replaces the old one *)

(** After [refresh_token] only the token just drawn is accepted: whatever
    the callback data, if their token part (what [rsplit] cuts off after the
    last delimiter) is not the new token they are refused, and if it is the
    new token they are accepted for the next hour, giving back the part
    before the delimiter. *)
Theorem refresh_token_replaces p fresh t1 t2 s :
  let '(new, s1) := refresh_token p fresh t1 s in
  new = fresh ∧
  (∀ data front part : string,
     Py.rsplit1 delimiter data = [front; part] → part ≠ fresh →
     ∃ s2, extract_callback_data p data t2 s1 = Py.Returned None s2) ∧
  (∀ data front : string,
     Py.rsplit1 delimiter data = [front; fresh] → t2 ≤ t1 + 3600000000 →
     extract_callback_data p data t2 s1 = Py.Returned (Some front) s1).
Proof.
  unfold refresh_token, generate_token. split; [done|]. split.
  - intros data front part E N.
    rewrite (extract_callback_data_split p data front part t2 _ E).
    unfold validate_token. simpl. rewrite !lookup_insert_eq.
    destruct (t2 >? _); [by eexists|].
    destruct (String.eqb_spec fresh part); [congruence | by eexists].
  - intros data front E T.
    rewrite (extract_callback_data_split p data front fresh t2 _ E).
    unfold validate_token. simpl. rewrite !lookup_insert_eq.
    replace (t2 >? _) with false.
    + by rewrite String.eqb_refl.
    + symmetry. rewrite Z.gtb_ltb. apply Z.ltb_ge. exact T.
Qed.

Lemma refresh_token_replaces_witness :
  let s := (generate_token 7 "AbC-_9xyz01" 0 init).2 in
  let s1 := (refresh_token 7 "QQQQQQQQQQQ" 10 s).2 in
  (∃ s2, extract_callback_data 7 "approve_42|csrf:AbC-_9xyz01" 20 s1 = Py.Returned None s2) ∧
  (∃ s2, extract_callback_data 7 "a|csrf:x|y" 20 s1 = Py.Returned None s2) ∧
  extract_callback_data 7 "approve_42|csrf:QQQQQQQQQQQ" 20 s1 = Py.Returned (Some "approve_42") s1.
Proof.
  intros s s1.
  pose proof (refresh_token_replaces 7 "QQQQQQQQQQQ" 10 20 s) as H.
  unfold refresh_token, generate_token in H.
  destruct H as (_ & Old & New). split; [|split].
  - apply (Old "approve_42|csrf:AbC-_9xyz01" "approve_42" "AbC-_9xyz01");
      [reflexivity | discriminate].
  - apply (Old "a|csrf:x|y" "a" "x|y"); [reflexivity | discriminate].
  - apply (New "approve_42|csrf:QQQQQQQQQQQ" "approve_42");
      [reflexivity | vm_compute; intros [=]].
Defined.

(** *** The sweep of expired tokens *)

Lemma lookup_foldr_delete_keys {A : Type} (m : gmap Z A) (ks : list Z) k :
  foldr delete m ks !! k = if decide (k ∈ ks) then None else m !! k.
Proof.
  induction ks as [|k' ks IH].
  - destruct (decide (k ∈ [])) as [H|]; [by apply elem_of_nil in H | done].
  - change (foldr delete m (k' :: ks)) with (delete k' (foldr delete m ks)).
    destruct (decide (k' = k)) as [->|Hne].
    + rewrite lookup_delete_eq.
      destruct (decide (k ∈ k :: ks)) as [|N]; [done|].
      exfalso. apply N, list_elem_of_here.
    + rewrite lookup_delete_ne, IH by done.
      destruct (decide (k ∈ ks)) as [Hin|Hin], (decide (k ∈ k' :: ks)) as [Hin'|Hin'];
        try done.
      * exfalso. by apply Hin', list_elem_of_further.
      * exfalso. apply elem_of_cons in Hin' as [->|?]; done.
Qed.

Lemma foldr_cleanup (ks : list Z) s :
  user_tokens (foldr _cleanup_user_token s ks) = foldr delete (user_tokens s) ks ∧
  token_expiry (foldr _cleanup_user_token s ks) = foldr delete (token_expiry s) ks.
Proof.
  induction ks as [|k ks [IH1 IH2]]; [done|]. simpl. by rewrite IH1, IH2.
Qed.

Lemma expired_tokens_elem now s u :
  u ∈ (List.filter (λ item : Z * Z, now >? item.2) (map_to_list (token_expiry s))).*1
  ↔ ∃ e, token_expiry s !! u = Some e ∧ (now >? e) = true.
Proof.
  rewrite list_elem_of_fmap. split.
  - intros ([u' e] & -> & H). apply list_elem_of_In, filter_In in H as [H E].
    apply list_elem_of_In, elem_of_map_to_list in H. by exists e.
  - intros (e & L & E). exists (u, e). split; [done|].
    apply list_elem_of_In, filter_In. split; [|done].
    by apply list_elem_of_In, elem_of_map_to_list.
Qed.

(** [cleanup_expired_tokens] removes from both dictionaries exactly the
    users whose expiry is in the past, and leaves every other entry as it
    was. *)
Theorem cleanup_expired_tokens_spec now s u :
  let s' := cleanup_expired_tokens now s in
  token_expiry s' !! u =
    match token_expiry s !! u with
    | Some e => if now >? e then None else Some e
    | None => None
    end ∧
  user_tokens s' !! u =
    match token_expiry s !! u with
    | Some e => if now >? e then None else user_tokens s !! u
    | None => user_tokens s !! u
    end.
Proof.
  simpl. unfold cleanup_expired_tokens.
  destruct (foldr_cleanup
    (List.filter (λ item : Z * Z, now >? item.2) (map_to_list (token_expiry s))).*1 s)
    as [-> ->].
  rewrite !lookup_foldr_delete_keys.
  destruct (decide _) as [H|H].
  - apply expired_tokens_elem in H as (e & -> & ->). done.
  - destruct (token_expiry s !! u) as [e|] eqn:L; [|done].
    destruct (now >? e) eqn:E; [|done].
    exfalso. apply H, expired_tokens_elem. by exists e.
Qed.

(** *** No exception in the states the methods produce *)

Lemma validate_token_returns p tok now s :
  well_formed s → returns_well_formed (validate_token p tok now s).
Proof.
  intros WF. pose proof WF as [D U]. unfold validate_token.
  destruct (user_tokens s !! p) as [stored|] eqn:L; [|done].
  destruct (D p (mk_is_Some _ _ L)) as [e ->].
  destruct (now >? e); [by apply cleanup_well_formed|].
  by destruct (negb _).
Qed.

(** From a state in which both dictionaries know the same users (as the
    methods leave it), no method raises: [validate_token] and
    [get_user_token] never miss a key, unpacking the [rsplit] in
    [extract_callback_data] never fails, and every method leaves such a
    state again. *)
Theorem well_formed_never_raises p tok (data : string) fresh now s :
  well_formed s → urlsafe fresh = true →
  returns_well_formed (validate_token p tok now s) ∧
  returns_well_formed (get_user_token p now s) ∧
  returns_well_formed (add_csrf_to_callback_data p data fresh now s) ∧
  returns_well_formed (extract_callback_data p data now s) ∧
  well_formed (generate_token p fresh now s).2 ∧
  well_formed (cleanup_expired_tokens now s).
Proof.
  intros WF F. pose proof WF as [D U].
  split; [by apply validate_token_returns|]. split; [|split; [|split; [|split]]].
  - unfold get_user_token.
    destruct (user_tokens s !! p) as [stored|] eqn:L; [|done].
    destruct (D p (mk_is_Some _ _ L)) as [e ->].
    destruct (now >? e); [by apply cleanup_well_formed | done].
  - destruct (add_csrf_to_callback_data_bound p data fresh now s WF F)
      as (t & e & s1 & -> & _ & _ & _ & _ & WF1). exact WF1.
  - unfold extract_callback_data.
    destruct (Py.contains delimiter data) eqn:C; [|done]. simpl.
    destruct (rsplit1_pair delimiter data) as (d & t & ->); [done | done |].
    pose proof (validate_token_returns p t now s WF) as V.
    destruct (validate_token p t now s) as [[] s1|]; done.
  - by apply generate_well_formed.
  - unfold cleanup_expired_tokens.
    induction ((List.filter _ _).*1) as [|k ks IH]; [done|].
    simpl. by apply cleanup_well_formed.
Qed.

Lemma well_formed_never_raises_witness :
  let s := (generate_token 7 "AbC-_9xyz01" 0 init).2 in
  well_formed s ∧ urlsafe "QQQQQQQQQQQ" = true ∧
  returns_well_formed (extract_callback_data 7 "a|csrf:b|csrf:AbC-_9xyz01" 3600000001 s).
Proof.
  intros s.
  assert (WF : well_formed s)
    by (apply generate_well_formed; [reflexivity | exact init_well_formed]).
  split; [exact WF|]. split; [reflexivity|].
  destruct (well_formed_never_raises 7 "x" "a|csrf:b|csrf:AbC-_9xyz01" "QQQQQQQQQQQ"
              3600000001 s WF eq_refl) as (_ & _ & _ & H & _).
  exact H.
Defined.

End CSRFMore.

(** ** More on the sliding windows *)

Section RateLimiterMore.

Import RateLimiter.

Implicit Types (s : RateLimiter) (c : category) (d : gmap Z (list Q))
               (u w n : Z) (t : Q) (l times : list Q).

Lemma check_history c u t s :
  history c u (state_of (check c u t s)) =
    if Z.of_nat (length (recent (window_of c s) t (history c u s))) >=? maximum_of c s
    then recent (window_of c s) t (history c u s)
    else recent (window_of c s) t (history c u s) ++ [t].
Proof.
  rewrite check_eq, state_of_lift, history_set.
  apply check_window_history.
Qed.

Lemma check_settings c c' u t s :
  window_of c' (state_of (check c u t s)) = window_of c' s ∧
  maximum_of c' (state_of (check c u t s)) = maximum_of c' s.
Proof.
  rewrite check_eq, state_of_lift. by destruct c, c'.
Qed.

(** Two invariants of the windows.  After a check at time [t], with a
    positive window, every reading on record for that user is younger than
    the window.  And a list that is not longer than the maximum never grows
    beyond it, however many checks follow. *)
Theorem window_invariants c u s :
  (∀ t x, 0 < window_of c s →
     x ∈ history c u (state_of (check c u t s)) →
     (t - x < inject_Z (window_of c s))%Q) ∧
  (∀ times,
     Z.of_nat (length (history c u s)) ≤ maximum_of c s →
     Z.of_nat (length (history c u (checks c u times s))) ≤ maximum_of c s).
Proof.
  split.
  - intros t x W. rewrite check_history.
    assert (Z0 : (t - t < inject_Z (window_of c s))%Q).
    { assert (P : (inject_Z 0 < inject_Z (window_of c s))%Q) by (rewrite <- Zlt_Qlt; exact W).
      change (inject_Z 0) with 0%Q in P. lra. }
    destruct (_ >=? _).
    + intros H. by apply recent_elem in H as [_ ?].
    + intros H. apply elem_of_app in H as [H|H].
      * by apply recent_elem in H as [_ ?].
      * apply list_elem_of_singleton in H as ->. exact Z0.
  - intros times. unfold checks. revert s.
    induction times as [|t times IH]; intros s H; [done|].
    simpl. destruct (check_settings c c u t s) as [_ M].
    rewrite <- M. apply IH. rewrite M, check_history.
    pose proof (recent_length (window_of c s) t (history c u s)) as L.
    destruct (Z.geb_spec (Z.of_nat (length (recent (window_of c s) t (history c u s))))
                (maximum_of c s)); [lia|].
    rewrite length_app. simpl. lia.
Qed.

Lemma window_invariants_witness :
  let s := checks Pin 1 [0%Q; 100%Q; 200%Q] defaults in
  (∀ x, x ∈ history Pin 1 (state_of (check Pin 1 350%Q s)) →
        (350 - x < inject_Z 300)%Q) ∧
  Z.of_nat (length (history Pin 1
     (checks Pin 1 [0%Q; 1%Q; 2%Q; 3%Q; 4%Q; 5%Q; 6%Q] defaults))) ≤ 5.
Proof.
  intros s. split.
  - intros x. apply (proj1 (window_invariants Pin 1 s) 350%Q x). reflexivity.
  - apply (proj2 (window_invariants Pin 1 defaults)). vm_compute. intros [=].
Defined.

(** A check touches nothing but the list of its own user in its own
    category: every other user's readings, the other categories and the
    settings are as they were. *)
Theorem check_touches_one_list c u t s c' u' :
  c' ≠ c ∨ u' ≠ u →
  history c' u' (state_of (check c u t s)) = history c' u' s ∧
  window_of c' (state_of (check c u t s)) = window_of c' s ∧
  maximum_of c' (state_of (check c u t s)) = maximum_of c' s.
Proof.
  intros H. split; [|apply check_settings].
  rewrite check_eq, state_of_lift.
  assert (Same : u' ≠ u →
    history c u' (set_attempts c (state_of (check_window (window_of c s)
       (maximum_of c s) u t (attempts_of c s))) s) = history c u' s).
  { intros Hu. rewrite history_set. unfold history, check_window.
    destruct (_ >=? _).
    - destruct (Py.min _); simpl; by rewrite lookup_insert_ne.
    - simpl. by rewrite !lookup_insert_ne. }
  destruct c, c'; try reflexivity; destruct H as [H|H]; try done; by apply Same.
Qed.

Lemma check_touches_one_list_witness :
  let s := checks Pin 1 [0%Q; 1%Q] defaults in
  (Twofa ≠ Pin ∨ 1 ≠ 1) ∧ (Pin ≠ Pin ∨ 2 ≠ 1) ∧
  history Twofa 1 (state_of (check Pin 1 2%Q s)) = history Twofa 1 s ∧
  history Pin 2 (state_of (check Pin 1 2%Q s)) = history Pin 2 s.
Proof.
  intros s.
  assert (A : Twofa ≠ Pin ∨ 1 ≠ 1) by (left; discriminate).
  assert (B : Pin ≠ Pin ∨ 2 ≠ 1) by (right; discriminate).
  split; [exact A|]. split; [exact B|]. split.
  - exact (proj1 (check_touches_one_list Pin 1 2%Q s Twofa 1 A)).
  - exact (proj1 (check_touches_one_list Pin 1 2%Q s Pin 2 B)).
Defined.

(** *** Resetting *)

Lemma check_window_fresh w n u t d :
  1 ≤ n → d !! u = None →
  check_window w n u t d = Py.Returned (Allowed (n - 1)) (<[u := [t]]> d).
Proof.
  intros N E.
  pose proof (check_window_allowed w n u t d) as A. simpl in A.
  rewrite E in A. simpl in A. apply A. lia.
Qed.

(** After [reset_pin_attempts] (or [reset_twofa_attempts]) the next check
    of that user is allowed, whatever was on record, and starts a new list
    with one reading; the other users' readings are not touched. *)
Theorem reset_then_check_allowed u t s :
  (1 ≤ max_pin_attempts s →
     ∃ s', check_pin_rate_limit u t (reset_pin_attempts u s) =
             Py.Returned (Allowed (max_pin_attempts s - 1)) s' ∧
           history Pin u s' = [t]) ∧
  (1 ≤ max_twofa_attempts s →
     ∃ s', check_twofa_rate_limit u t (reset_twofa_attempts u s) =
             Py.Returned (Allowed (max_twofa_attempts s - 1)) s' ∧
           history Twofa u s' = [t]) ∧
  (∀ u', u' ≠ u →
     history Pin u' (reset_pin_attempts u s) = history Pin u' s ∧
     history Twofa u' (reset_twofa_attempts u s) = history Twofa u' s).
Proof.
  split; [|split].
  - intros N. eexists. unfold check_pin_rate_limit, reset_pin_attempts. simpl.
    rewrite check_window_fresh by (done || apply lookup_delete_eq). simpl.
    split; [reflexivity|]. unfold history. simpl. by rewrite lookup_insert_eq.
  - intros N. eexists. unfold check_twofa_rate_limit, reset_twofa_attempts. simpl.
    rewrite check_window_fresh by (done || apply lookup_delete_eq). simpl.
    split; [reflexivity|]. unfold history. simpl. by rewrite lookup_insert_eq.
  - intros u' Hu. unfold history. simpl. by rewrite !lookup_delete_ne.
Qed.

Lemma reset_then_check_allowed_witness :
  let s := checks Pin 1 [0%Q; 0%Q; 0%Q; 0%Q; 0%Q] defaults in
  allowed (check_pin_rate_limit 1 1%Q s) = false ∧
  ∃ s', check_pin_rate_limit 1 1%Q (reset_pin_attempts 1 s) =
          Py.Returned (Allowed 4) s'.
Proof.
  intros s. split; [reflexivity|].
  destruct (proj1 (reset_then_check_allowed 1 1%Q s)) as (s' & H & _).
  - vm_compute. intros [=].
  - by exists s'.
Defined.

(** *** The wait that a refusal reports *)

Lemma int_inject_Z (z : Z) : Py.int (inject_Z z) = z.
Proof. unfold Py.int. simpl. apply Z.quot_1_r. Qed.

(** When no reading on record lies in the future, the wait reported by a
    refused check is between zero and the length of the window. *)
Theorem denied_wait_bounds c u t s r s' :
  check c u t s = Py.Returned (Denied r) s' →
  (∀ x, x ∈ history c u s → (x <= t)%Q) →
  0 ≤ r ≤ window_of c s.
Proof.
  intros H Past.
  apply check_returned in H as (d' & H & _).
  apply check_window_returned in H as [(_ & [=] & _)|(_ & m & Hm & [= ->] & _)].
  fold (history c u s) in Hm.
  apply min_spec in Hm as [Hin _]. apply recent_elem in Hin as [Hin Hw].
  specialize (Past m Hin).
  split.
  - transitivity (Py.int (inject_Z 0)); [by rewrite int_inject_Z|].
    apply int_le. change (inject_Z 0) with 0%Q. lra.
  - transitivity (Py.int (inject_Z (window_of c s))); [|by rewrite int_inject_Z].
    apply int_le. lra.
Qed.

Ltac each_reading H :=
  repeat (apply elem_of_cons in H as [->|H]);
  try (apply elem_of_nil in H; destruct H).

Lemma denied_wait_bounds_witness :
  let s := checks Twofa 1 [0%Q; 10%Q; 20%Q] defaults in
  let s' := state_of (check Twofa 1 (61 # 2)%Q s) in
  check Twofa 1 (61 # 2)%Q s = Py.Returned (Denied 149) s' ∧ 0 ≤ 149 ≤ 180.
Proof.
  intros s s'.
  assert (H : check Twofa 1 (61 # 2)%Q s = Py.Returned (Denied 149) s') by reflexivity.
  split; [exact H|].
  apply (denied_wait_bounds Twofa 1 (61 # 2)%Q s 149 s' H).
  intros x Hx. change (history Twofa 1 s) with [0%Q; 10%Q; 20%Q] in Hx.
  each_reading Hx; vm_compute; intros [=].
Defined.

(** *** Asking how many attempts are left *)

Lemma recent_recent w t l :
  recent w t (recent w t l) = recent w t l.
Proof. apply recent_all. intros x Hx. by apply recent_elem in Hx as [_ ?]. Qed.

Lemma allowed_check_window w n u t d :
  allowed (check_window w n u t d) =
    (Z.of_nat (length (recent w t (default [] (d !! u)))) <? n).
Proof.
  unfold check_window.
  destruct (Z.geb_spec (Z.of_nat (length (recent w t (default [] (d !! u))))) n).
  - destruct (Py.min _); simpl; symmetry; apply Z.ltb_ge; lia.
  - simpl. symmetry. apply Z.ltb_lt. lia.
Qed.

Lemma check_window_after_pruning w n u t d :
  check_window w n u t (<[u := recent w t (default [] (d !! u))]> d) =
  check_window w n u t d.
Proof.
  unfold check_window. rewrite lookup_insert_eq. simpl.
  by rewrite recent_recent, !insert_insert_eq.
Qed.

(** [get_pin_attempts_remaining] and [get_twofa_attempts_remaining] agree
    with the checks: the number they return is positive exactly when a
    check at the same time is allowed, an allowed check reports one less,
    and having asked first changes neither the answer of the check nor the
    state it leaves. *)
Theorem remaining_agrees_with_check u t s :
  (let '(k, s1) := get_pin_attempts_remaining u t s in
   0 ≤ k ∧
   (0 <? k) = allowed (check_pin_rate_limit u t s) ∧
   (∀ r s', check_pin_rate_limit u t s = Py.Returned (Allowed r) s' → r = k - 1) ∧
   check_pin_rate_limit u t s1 = check_pin_rate_limit u t s) ∧
  (let '(k, s1) := get_twofa_attempts_remaining u t s in
   0 ≤ k ∧
   (0 <? k) = allowed (check_twofa_rate_limit u t s) ∧
   (∀ r s', check_twofa_rate_limit u t s = Py.Returned (Allowed r) s' → r = k - 1) ∧
   check_twofa_rate_limit u t s1 = check_twofa_rate_limit u t s).
Proof.
  assert (G : ∀ w n (d : gmap Z (list Q)),
    let k := Z.max 0 (n - Z.of_nat (length (recent w t (default [] (d !! u))))) in
    0 ≤ k ∧
    (0 <? k) = allowed (check_window w n u t d) ∧
    (∀ r d', check_window w n u t d = Py.Returned (Allowed r) d' → r = k - 1)).
  { intros w n d k. split; [lia|]. split.
    - rewrite allowed_check_window. unfold k.
      destruct (Z.ltb_spec (Z.of_nat (length (recent w t (default [] (d !! u))))) n).
      + apply Z.ltb_lt. lia.
      + apply Z.ltb_ge. lia.
    - intros r d' H.
      apply check_window_returned in H as [(L & [= ->] & _)|(_ & m & _ & [=] & _)].
      unfold k. rewrite length_app. simpl. lia. }
  split.
  - unfold get_pin_attempts_remaining, remaining_window, check_pin_rate_limit.
    destruct (G (pin_lockout_duration s) (max_pin_attempts s) (pin_attempts s))
      as (K0 & KA & KR).
    split; [exact K0|]. split; [|split].
    + rewrite KA. by destruct (check_window _ _ _ _ _) as [[]|].
    + intros r s' H.
      destruct (check_window (pin_lockout_duration s) (max_pin_attempts s) u t
                  (pin_attempts s)) as [v d'|] eqn:E; [|done].
      injection H as -> _. by apply (KR r d').
    + simpl. by rewrite check_window_after_pruning.
  - unfold get_twofa_attempts_remaining, remaining_window, check_twofa_rate_limit.
    destruct (G (twofa_lockout_duration s) (max_twofa_attempts s) (twofa_attempts s))
      as (K0 & KA & KR).
    split; [exact K0|]. split; [|split].
    + rewrite KA. by destruct (check_window _ _ _ _ _) as [[]|].
    + intros r s' H.
      destruct (check_window (twofa_lockout_duration s) (max_twofa_attempts s) u t
                  (twofa_attempts s)) as [v d'|] eqn:E; [|done].
      injection H as -> _. by apply (KR r d').
    + simpl. by rewrite check_window_after_pruning.
Qed.

Lemma remaining_agrees_with_check_witness :
  let s := checks Pin 1 [0%Q; 100%Q] defaults in
  (get_pin_attempts_remaining 1 150%Q s).1 = 3 ∧
  ∃ s', check_pin_rate_limit 1 150%Q s = Py.Returned (Allowed 2) s' ∧ 2 = 3 - 1.
Proof.
  intros s. split; [reflexivity|].
  pose proof (proj1 (remaining_agrees_with_check 1 150%Q s)) as H.
  destruct (get_pin_attempts_remaining 1 150%Q s) as [k s1] eqn:E.
  assert (K : k = 3) by (apply (f_equal fst) in E; vm_compute in E; congruence).
  subst k. destruct H as (_ & _ & R & _).
  eexists. split; [reflexivity|].
  eapply R. reflexivity.
Defined.

End RateLimiterMore.

(** ** Pages *)

Section PaginationFacts.

Import Pagination.

Context {A : Type}.
Implicit Types (results l : list A) (k n i : nat) (ipp requested : Z).

Lemma slice_from ipp l (a : Z) :
  0 ≤ a → 0 ≤ ipp →
  slice l a (a + ipp) = take (Z.to_nat ipp) (drop (Z.to_nat a) l).
Proof.
  intros Ha Hk. unfold slice, slice_bound.
  destruct (Z.ltb_spec a 0); [lia|]. destruct (Z.ltb_spec (a + ipp) 0); [lia|].
  destruct (Z_le_gt_dec a (Z.of_nat (length l))) as [Hin|Hout].
  - rewrite (Z.min_l a) by lia.
    destruct (Z_le_gt_dec (a + ipp) (Z.of_nat (length l))).
    + rewrite Z.min_l by lia. f_equal. lia.
    + rewrite Z.min_r by lia.
      rewrite !take_ge; [done | |]; rewrite length_drop; lia.
  - rewrite !Z.min_r by lia. rewrite Z.sub_diag.
    change (Z.to_nat 0) with 0%nat.
    rewrite take_0, (drop_ge l (Z.to_nat a)) by lia. by rewrite take_nil.
Qed.

(** Cutting a list into pieces of [k] and gluing them gives the list. *)
Lemma concat_chunks k n l :
  (length l ≤ n * k)%nat →
  concat ((λ i, take k (drop (i * k)%nat l)) <$> seq 0 n) = l.
Proof.
  revert l. induction n as [|n IH]; intros l H.
  - simpl in H. rewrite (nil_length_inv l) by lia. reflexivity.
  - rewrite <- cons_seq, fmap_cons, <- fmap_S_seq, <- list_fmap_compose.
    simpl. rewrite drop_0.
    transitivity (take k l ++ drop k l); [|apply take_drop]. f_equal.
    rewrite <- (IH (drop k l)) by (rewrite length_drop; simpl in H; lia).
    f_equal. apply list_fmap_ext. intros i x _. simpl.
    by rewrite drop_drop.
Qed.

Lemma locate_positive ipp (count : nat) requested :
  0 < ipp → (0 < count)%nat →
  ∃ pos, locate ipp count requested = Some pos ∧
    total_pages pos = (Z.of_nat count - 1) / ipp + 1 ∧
    page pos = Z.max 0 (Z.min requested (total_pages pos - 1)) ∧
    start_idx pos = page pos * ipp ∧
    0 ≤ page pos < total_pages pos ∧
    0 ≤ start_idx pos < Z.of_nat count ∧
    Z.of_nat count ≤ total_pages pos * ipp.
Proof.
  intros Hk Hc. unfold locate, floordiv.
  destruct (Z.eqb_spec ipp 0); [lia|].
  eexists. split; [reflexivity|]. simpl.
  set (q := (Z.of_nat count - 1) / ipp).
  assert (Q0 : 0 ≤ q) by (apply Z.div_pos; lia).
  assert (Q1 : q * ipp ≤ Z.of_nat count - 1)
    by (unfold q; rewrite Z.mul_comm; apply Z.mul_div_le; lia).
  assert (Q2 : Z.of_nat count - 1 < (q + 1) * ipp)
    by (unfold q; rewrite Z.mul_comm; apply Z.mul_succ_div_gt; lia).
  set (pg := Z.max 0 (Z.min requested (q + 1 - 1))).
  assert (P : 0 ≤ pg ≤ q) by lia.
  assert (S : pg * ipp ≤ q * ipp) by (apply Z.mul_le_mono_nonneg_r; lia).
  assert (S0 : 0 ≤ pg * ipp) by (apply Z.mul_nonneg_nonneg; lia).
  repeat split; try done; lia.
Qed.

Lemma nonempty_length l : l ≠ [] → (0 < length l)%nat.
Proof. destruct l; [done | simpl; lia]. Qed.


(** The pages cover the list: the rows of page 0, page 1, ... up to the
    last page, one after the other, are the whole list, each element once
    and in order; and a page number outside that range shows what the
    nearest page inside it shows. *)
Theorem pages_partition ipp results :
  0 < ipp → results ≠ [] →
  ∃ pages,
    total_pages <$> locate ipp (length results) 0 = Some pages ∧
    concat ((λ i, default [] (page_items ipp results (Z.of_nat i)))
              <$> seq 0 (Z.to_nat pages)) = results ∧
    ∀ requested,
      page_items ipp results requested =
      page_items ipp results (Z.max 0 (Z.min requested (pages - 1))).
Proof.
  intros Hk Hne. pose proof (nonempty_length results Hne) as Hc.
  destruct (locate_positive ipp (length results) 0 Hk Hc)
    as (pos & L & T & _ & _ & Pr & _ & Cover).
  exists (total_pages pos). rewrite L. split; [done|].
  assert (Items : ∀ requested,
    page_items ipp results requested =
      Some (take (Z.to_nat ipp)
              (drop (Z.to_nat (Z.max 0 (Z.min requested (total_pages pos - 1)) * ipp))
                    results))).
  { intros requested.
    destruct (locate_positive ipp (length results) requested Hk Hc)
      as (pos' & L' & T' & P' & S' & Pr' & Sr' & _).
    unfold page_items. destruct results as [|x results']; [done|].
    rewrite L'. rewrite slice_from by lia. by rewrite S', P', T', <- T. }
  split.
  - etrans; [|apply (concat_chunks (Z.to_nat ipp) (Z.to_nat (total_pages pos)) results)].
    2:{ apply Nat2Z.inj_le. rewrite Nat2Z.inj_mul, !Z2Nat.id by lia. exact Cover. }
    f_equal. apply list_fmap_ext. intros i x Hi.
    apply lookup_seq in Hi as [-> Hi]. rewrite Items. simpl. do 2 f_equal.
    rewrite Z.max_r, Z.min_l by lia. rewrite Z2Nat.inj_mul by lia.
    by rewrite Nat2Z.id.
  - intros requested. rewrite !Items. do 4 f_equal. lia.
Qed.

(** The navigation row only leads to pages that exist, and there is no
    such row when everything fits on one page. *)
Theorem navigation_leads_inside ipp results requested :
  0 < ipp → results ≠ [] →
  ∃ pages row,
    total_pages <$> locate ipp (length results) requested = Some pages ∧
    navigation ipp results requested = Some row ∧
    Forall (leads_inside pages) row ∧
    (Z.of_nat (length results) ≤ ipp → row = []).
Proof.
  intros Hk Hne. pose proof (nonempty_length results Hne) as Hc.
  destruct (locate_positive ipp (length results) requested Hk Hc)
    as (pos & L & T & P & S & Pr & Sr & Cover).
  unfold navigation. destruct results as [|x results']; [done|].
  set (results := x :: results') in *. rewrite L.
  eexists _, _. split; [reflexivity|]. split; [reflexivity|]. split.
  - destruct (Z.gtb_spec (total_pages pos) 1); [|constructor].
    apply Forall_app. split.
    + destruct (Z.gtb_spec (page pos) 0); constructor; [simpl; lia | constructor].
    + constructor; [simpl; lia|].
      destruct (Z.ltb_spec (page pos) (total_pages pos - 1)); constructor;
        [simpl; lia | constructor].
  - intros Fit. destruct (Z.gtb_spec (total_pages pos) 1); [|done].
    exfalso. rewrite T in *.
    assert ((Z.of_nat (length results) - 1) / ipp = 0)
      by (apply Z.div_small; lia).
    lia.
Qed.

End PaginationFacts.


Lemma pages_partition_witness :
  concat ((λ i, default [] (Pagination.page_items 10 (seq 0 25) (Z.of_nat i)))
            <$> seq 0 3) = seq 0 25.
Proof.
  destruct (pages_partition (A := nat) 10 (seq 0 25)) as (pages & T & C & _);
    [done | done |].
  vm_compute in T. injection T as <-. exact C.
Defined.

Lemma navigation_leads_inside_witness :
  Pagination.navigation 10 (seq 0 25) 1
  = Some [Pagination.Back 0; Pagination.Place 2 3; Pagination.Forward 2].
Proof.
  destruct (navigation_leads_inside (A := nat) 10 (seq 0 25) 1)
    as (pages & row & _ & N & _); [done | done |].
  rewrite N. vm_compute in N. by injection N as <-.
Defined.

(** ** The format of the PIN and of the code *)

Section InputValidatorFacts.

Import InputValidator.

Implicit Types (txt ds rest : string) (k lo hi : nat).

Lemma digit_not_newline c : is_digit c = true → String c "" ≠ newline.
Proof. intros D [= ->]. discriminate D. Qed.

Lemma leading_digits_app ds rest :
  all_digits ds = true →
  (rest = "" ∨ rest = newline) →
  leading_digits (ds +:+ rest) = (String.length ds, rest).
Proof.
  intros D R. induction ds as [|c ds IH].
  - rewrite append_empty. by destruct R as [-> | ->].
  - rewrite append_cons.
    change (all_digits (String c ds)) with (is_digit c && all_digits ds) in D.
    apply andb_true_iff in D as [Dc Dd].
    cbn [leading_digits]. by rewrite Dc, (IH Dd).
Qed.

Lemma leading_digits_split txt k rest :
  leading_digits txt = (k, rest) →
  ∃ ds, txt = ds +:+ rest ∧ all_digits ds = true ∧ String.length ds = k.
Proof.
  revert k rest. induction txt as [|c txt IH]; intros k rest.
  - intros [= <- <-]. by exists "".
  - cbn [leading_digits]. destruct (is_digit c) eqn:D.
    + destruct (leading_digits txt) as [k' rest'] eqn:E. intros [= <- <-].
      destruct (IH k' rest' eq_refl) as (ds & -> & Dd & <-).
      exists (String c ds). repeat split.
      change (all_digits (String c ds)) with (is_digit c && all_digits ds).
      by rewrite D, Dd.
    + intros [= <- <-]. by exists "".
Qed.

Lemma append_empty_r txt : txt +:+ "" = txt.
Proof. induction txt as [|c txt IH]; [done|]. by rewrite append_cons, IH. Qed.

Lemma match_digits_iff lo hi txt :
  match_digits lo hi txt = true ↔
  ∃ ds, all_digits ds = true ∧ (lo ≤ String.length ds ≤ hi)%nat ∧
        (txt = ds ∨ txt = ds +:+ newline).
Proof.
  unfold match_digits. split.
  - destruct (leading_digits txt) as [k rest] eqn:E.
    apply leading_digits_split in E as (ds & -> & D & <-).
    rewrite !andb_true_iff, orb_true_iff, !Nat.leb_le, !String.eqb_eq.
    intros [[? ?] [-> | ->]].
    + exists ds. split; [done|]. split; [lia|]. left. apply append_empty_r.
    + exists ds. split; [done|]. split; [lia|]. by right.
  - intros (ds & D & [L H] & [-> | ->]).
    + rewrite <- (append_empty_r ds) at 1. rewrite leading_digits_app by auto.
      rewrite !andb_true_iff, !Nat.leb_le. split; [lia | done].
    + rewrite leading_digits_app by auto.
      rewrite !andb_true_iff, !Nat.leb_le, orb_true_iff. split; [lia|].
      right. apply String.eqb_refl.
Qed.

(** What the two validators accept: [validate_pin_code] a text of four to
    ten digits, [validate_twofa_code] a text of exactly six digits, each
    also when one newline follows the digits, and nothing else. *)
Theorem validators_accept_digits txt :
  (validate_pin_code txt = Valid ↔
     ∃ ds, all_digits ds = true ∧ (4 ≤ String.length ds ≤ 10)%nat ∧
           (txt = ds ∨ txt = ds +:+ newline)) ∧
  (validate_twofa_code txt = Valid ↔
     ∃ ds, all_digits ds = true ∧ String.length ds = 6%nat ∧
           (txt = ds ∨ txt = ds +:+ newline)).
Proof.
  assert (G : ∀ lo hi, (0 < lo)%nat →
    ((match txt with
      | EmptyString => Empty
      | String _ _ => if negb (match_digits lo hi txt) then BadFormat else Valid
      end) = Valid ↔ match_digits lo hi txt = true)).
  { intros lo hi Hlo. destruct txt as [|c txt'].
    - split; [done|]. intros H. apply match_digits_iff in H as (ds & _ & [L _] & [E | E]).
      + subst ds. simpl in L. lia.
      + destruct ds; [simpl in L; lia | discriminate E].
    - destruct (match_digits lo hi (String c txt')); simpl; split; done. }
  split.
  - unfold validate_pin_code. rewrite (G 4%nat 10%nat) by lia. apply match_digits_iff.
  - unfold validate_twofa_code. rewrite (G 6%nat 6%nat) by lia.
    rewrite match_digits_iff. split; intros (ds & D & L & E); exists ds;
      repeat split; try done; lia.
Qed.

End InputValidatorFacts.

(** ** From a request to the decision *)

Section AuthFlow.

Import Auth.

Implicit Types (m : AuthManager) (uid : Z) (uname now : string).

Lemma add_user_request_users uid uname now m :
  users (allowed_users (add_user_request uid uname now m)) = users (allowed_users m).
Proof. unfold add_user_request. by destruct (existsb _ _). Qed.

Lemma add_user_request_pending uid uname now m :
  uid ∈ pending_ids (add_user_request uid uname now m).
Proof.
  unfold add_user_request. destruct (existsb _ _) eqn:E.
  - by apply existsb_pending in E.
  - unfold pending_ids. simpl. rewrite fmap_app, elem_of_app. right.
    apply list_elem_of_here.
Qed.

Lemma is_user_allowed_users uid m m' :
  users (allowed_users m') = users (allowed_users m) →
  is_user_allowed uid m' = is_user_allowed uid m.
Proof. unfold is_user_allowed. by intros ->. Qed.

(** A request followed by the administrator's decision.  Approval makes
    the user allowed and removes the request; it returns [True] unless the
    user was allowed already.  Denial returns [True], removes the request
    and leaves the user as allowed or not as before. *)
Theorem request_then_decision uid uname now now' m :
  let m1 := add_user_request uid uname now m in
  (let '(r, m2) := approve_user uid uname now' m1 in
   r = negb (is_user_allowed uid m) ∧
   is_user_allowed uid m2 = true ∧
   uid ∉ pending_ids m2) ∧
  (let '(r, m2) := deny_user uid uname m1 in
   r = true ∧
   is_user_allowed uid m2 = is_user_allowed uid m ∧
   uid ∉ pending_ids m2).
Proof.
  intros m1.
  pose proof (add_user_request_users uid uname now m) as U. fold m1 in U.
  pose proof (add_user_request_pending uid uname now m) as P. fold m1 in P.
  pose proof (is_user_allowed_users uid m m1 U) as A.
  assert (N : ∀ f us,
    uid ∉ pending_ids (Manager (Registry us
       (filter (λ r, req_user_id r ≠ uid) (pending_requests (allowed_users m1)))) f)).
  { intros f us. unfold pending_ids. simpl. rewrite filter_requests_ids. by intros [? _]. }
  split.
  - unfold approve_user.
    replace (is_user_allowed uid (Manager _ _)) with (is_user_allowed uid m1) by reflexivity.
    rewrite A. destruct (is_user_allowed uid m) eqn:E; simpl.
    + split; [done|]. split; [|apply N].
      rewrite <- A. by apply is_user_allowed_users.
    + split; [done|]. split; [|apply N].
      apply is_user_allowed_iff. unfold approved_ids. simpl.
      rewrite fmap_app, elem_of_app. right. apply list_elem_of_here.
  - unfold deny_user.
    assert (L : (length (filter (λ r, req_user_id r ≠ uid)
                   (pending_requests (allowed_users m1)))
                 < length (pending_requests (allowed_users m1)))%nat).
    { unfold pending_ids in P. apply list_elem_of_fmap in P as (x & Hx & Hin).
      apply (length_filter_lt _ _ x Hin). intros H. by apply H. }
    apply Nat.ltb_lt in L. simpl. rewrite L. simpl.
    split; [done|]. split; [|apply N].
    rewrite <- A. by apply is_user_allowed_users.
Qed.

End AuthFlow.
